(** * ICS reader plugin: event store, date query and table rendering

    A shallow embedding of [src/main.ts] (class [ICSReaderPlugin]) together
    with the parts of the JavaScript [Date] object the plugin relies on
    ([toDateString], and [format(d, 'HH:mm')] of date-fns). *)

From Stdlib Require Import ZArith Lia List Bool String Ascii.
From Stdlib Require Import Decimal DecimalString DecimalN.
Import ListNotations.

Local Open Scope string_scope.
Local Open Scope Z_scope.

(** ** JavaScript dates *)

(** A [Date] holds a time value: a number of milliseconds since the epoch,
    or NaN, in which case the date is an "Invalid Date". *)
Inductive Date : Type :=
| InvalidDate
| DateOf (tv : Z).

Definition isValid (d : Date) : bool :=
  match d with InvalidDate => false | DateOf _ => true end.

(** [new Date(d)]: a copy of [d], with the same time value. *)
Definition newDate (d : Date) : Date := d.

Module Calendar.

Definition msPerDay : Z := 86400000.
Definition msPerHour : Z := 3600000.
Definition msPerMinute : Z := 60000.

(** Day number and time within the day of a time value. *)
Definition Day (t : Z) : Z := t / msPerDay.
Definition TimeWithinDay (t : Z) : Z := t mod msPerDay.

Definition HourFromTime (t : Z) : Z := (t / msPerHour) mod 24.
Definition MinFromTime (t : Z) : Z := (t / msPerMinute) mod 60.

(** Day of the week, 0 for Sunday; day 0 (1 January 1970) is a Thursday. *)
Definition WeekDay (t : Z) : Z := (Day t + 4) mod 7.

(** Proleptic Gregorian date of a day number, by 400-year eras that start
    on 1 March.  [doe] is the day of the era, [yoe] the year of the era,
    [doy] the day of the year counted from 1 March, [mp] the month
    counted from March. *)
Definition daysPerEra : Z := 146097.
Definition eraShift : Z := 719468.

Definition yoe_of_doe (doe : Z) : Z :=
  (doe - doe / 1460 + doe / 36524 - doe / 146096) / 365.
Definition doy_of_doe (doe : Z) : Z :=
  let yoe := yoe_of_doe doe in
  doe - (365 * yoe + yoe / 4 - yoe / 100).
Definition mp_of_doy (doy : Z) : Z := (5 * doy + 2) / 153.
Definition dom_of_doy (doy : Z) : Z :=
  doy - (153 * mp_of_doy doy + 2) / 5 + 1.
Definition month_of_mp (mp : Z) : Z :=
  if mp <? 10 then mp + 3 else mp - 9.

Record civil : Type := mkCivil { c_year : Z; c_month : Z; c_day : Z }.

(** [c_month] is 1-based here; [MonthFromTime] below is 0-based as in
    JavaScript. *)
Definition civil_from_days (z : Z) : civil :=
  let z' := z + eraShift in
  let era := z' / daysPerEra in
  let doe := z' mod daysPerEra in
  let yoe := yoe_of_doe doe in
  let doy := doy_of_doe doe in
  let m := month_of_mp (mp_of_doy doy) in
  {| c_year := yoe + era * 400 + (if m <=? 2 then 1 else 0);
     c_month := m;
     c_day := dom_of_doy doy |}.

Definition days_from_civil (c : civil) : Z :=
  let y := c_year c - (if c_month c <=? 2 then 1 else 0) in
  let era := y / 400 in
  let yoe := y mod 400 in
  let mp := (c_month c + 9) mod 12 in
  let doy := (153 * mp + 2) / 5 + c_day c - 1 in
  let doe := yoe * 365 + yoe / 4 - yoe / 100 + doy in
  era * daysPerEra + doe - eraShift.

Definition YearFromTime (t : Z) : Z := c_year (civil_from_days (Day t)).
Definition MonthFromTime (t : Z) : Z := c_month (civil_from_days (Day t)) - 1.
Definition DateFromTime (t : Z) : Z := c_day (civil_from_days (Day t)).

(** The first day of year [y], as ECMAScript defines it. *)
Definition DayFromYear (y : Z) : Z :=
  365 * (y - 1970) + (y - 1969) / 4 - (y - 1901) / 100 + (y - 1601) / 400.

(** A check that computes: [f] holds on the [len] integers from [lo]. *)
Fixpoint check_range (f : Z -> bool) (lo : Z) (len : positive) : bool :=
  match len with
  | xH => f lo
  | xO p => check_range f lo p && check_range f (lo + Z.pos p) p
  | xI p => f lo && check_range f (lo + 1) p
                 && check_range f (lo + 1 + Z.pos p) p
  end.

End Calendar.

(** ** Text of dates *)

Definition nl : string := String (ascii_of_nat 10) EmptyString.

Module DateText.
Import Calendar.

Fixpoint zeros (k : nat) : string :=
  match k with
  | O => EmptyString
  | S k' => String "0" (zeros k')
  end.

(** Decimal digits of a natural number, most significant first. *)
Definition decimal (n : N) : string := NilEmpty.string_of_uint (N.to_uint n).

(** ECMAScript's ToZeroPaddedDecimalString(n, minLength). *)
Definition ToZeroPaddedDecimalString (n : Z) (minLength : nat) : string :=
  let s := decimal (Z.to_N n) in
  zeros (minLength - String.length s) ++ s.

(** Reads a string of decimal digits back. *)
Definition readDecimal (s : string) : option N :=
  option_map N.of_uint (NilEmpty.uint_of_string s).

Definition weekdayName (k : Z) : string :=
  if k =? 0 then "Sun" else if k =? 1 then "Mon" else if k =? 2 then "Tue"
  else if k =? 3 then "Wed" else if k =? 4 then "Thu"
  else if k =? 5 then "Fri" else "Sat".

Definition monthName (m : Z) : string :=
  if m =? 0 then "Jan" else if m =? 1 then "Feb" else if m =? 2 then "Mar"
  else if m =? 3 then "Apr" else if m =? 4 then "May"
  else if m =? 5 then "Jun" else if m =? 6 then "Jul"
  else if m =? 7 then "Aug" else if m =? 8 then "Sep"
  else if m =? 9 then "Oct" else if m =? 10 then "Nov" else "Dec".

Definition monthIndex (s : string) : Z :=
  if (s =? "Jan")%string then 0 else if (s =? "Feb")%string then 1
  else if (s =? "Mar")%string then 2 else if (s =? "Apr")%string then 3
  else if (s =? "May")%string then 4 else if (s =? "Jun")%string then 5
  else if (s =? "Jul")%string then 6 else if (s =? "Aug")%string then 7
  else if (s =? "Sep")%string then 8 else if (s =? "Oct")%string then 9
  else if (s =? "Nov")%string then 10 else 11.

Definition yearText (yv : Z) : string :=
  (if 0 <=? yv then "" else "-") ++ ToZeroPaddedDecimalString (Z.abs yv) 4.

(** ECMAScript's DateString(tv), [tv] a local time value:
    weekday, month, two-digit day and year, separated by spaces. *)
Definition DateString (tv : Z) : string :=
  weekdayName (WeekDay tv) ++ " " ++
  monthName (MonthFromTime tv) ++ " " ++
  ToZeroPaddedDecimalString (DateFromTime tv) 2 ++ " " ++
  yearText (YearFromTime tv).

(** The two digits of a number below 100. *)
Definition digit (k : Z) : ascii := ascii_of_nat (48 + Z.to_nat k).

Definition twoDigits (n : Z) : string :=
  String (digit (n / 10)) (String (digit (n mod 10)) EmptyString).

(** The text of pattern 'HH:mm' for a local time value. *)
Definition HHmm (tv : Z) : string :=
  ToZeroPaddedDecimalString (HourFromTime tv) 2 ++ ":" ++
  ToZeroPaddedDecimalString (MinFromTime tv) 2.

End DateText.

(** ** Exceptions *)

Inductive Error : Type :=
| TypeError (msg : string)
| RangeError (msg : string)
| OtherError (msg : string).

(** What evaluating an expression gives: a value, or a thrown exception. *)
Inductive Outcome (A : Type) : Type :=
| Returned (a : A)
| Thrown (e : Error).
Arguments Returned {A} a.
Arguments Thrown {A} e.

Definition obind {A B} (o : Outcome A) (k : A -> Outcome B) : Outcome B :=
  match o with
  | Returned a => k a
  | Thrown e => Thrown e
  end.

Declare Scope outcome_scope.
Delimit Scope outcome_scope with outcome.
Notation "x <- c ;; k" := (obind c (fun x => k))
  (at level 61, c at next level, right associativity) : outcome_scope.

(** [xs.map(f)] with a callback that may throw: the first exception ends the
    call, and no array is produced. *)
Fixpoint array_map {A B} (f : A -> Outcome B) (xs : list A)
  : Outcome (list B) :=
  match xs with
  | [] => Returned []
  | x :: rest =>
      (y <- f x ;; ys <- array_map f rest ;; Returned (y :: ys))%outcome
  end.

(** Reading a property of [null] throws a TypeError. *)
Definition deref {A} (what : string) (o : option A) : Outcome A :=
  match o with
  | Some a => Returned a
  | None => Thrown (TypeError ("Cannot read properties of null: " ++ what))
  end.

(** ** The host and the ical.js library *)

Record TFile : Type := { path : string; extension : string }.

(** The vault of the host application: its files, and reading one, which
    may fail. *)
Class Vault : Type := {
  getFiles : list TFile;
  read : TFile -> Outcome string
}.

(** What the plugin uses of ical.js.  [parse], [newComponent]
    ([new ICAL.Component(jCal)]) may throw; an [ICAL.Event] built on a
    component has a summary, and a start and an end date that are [None]
    (null) when the component lacks the property. *)
Class ICAL : Type := {
  JCalData : Type;
  Component : Type;
  ICAL_Time : Type;
  parse_is_function : bool;
  parse : string -> Outcome JCalData;
  newComponent : JCalData -> Outcome Component;
  getAllSubcomponents : Component -> string -> list Component;
  Event_summary : Component -> string;
  Event_startDate : Component -> option ICAL_Time;
  Event_endDate : Component -> option ICAL_Time;
  toJSDate : ICAL_Time -> Date
}.

(** ** The plugin *)

Record ICSReaderSettings : Type := { icsDirectory : string }.

Record Event : Type := { summary : string; start : Date; end_ : Date }.

Definition DEFAULT_SETTINGS : ICSReaderSettings := {| icsDirectory := "" |}.

(** The fields of [ICSReaderPlugin], and the notices it has shown. *)
Record Plugin : Type := {
  settings : ICSReaderSettings;
  events : list Event;
  notices : list string
}.

Definition initialPlugin : Plugin :=
  {| settings := DEFAULT_SETTINGS; events := []; notices := [] |}.

(** Methods run on the plugin object: they read and write its fields and
    may throw; what was written before a throw stays written. *)
Definition M (A : Type) : Type := Plugin -> Outcome A * Plugin.

Definition ret {A} (a : A) : M A := fun p => (Returned a, p).
Definition throw {A} (e : Error) : M A := fun p => (Thrown e, p).
Definition bind {A B} (c : M A) (k : A -> M B) : M B :=
  fun p => match c p with
           | (Returned a, p') => k a p'
           | (Thrown e, p') => (Thrown e, p')
           end.
Definition tryCatch {A} (body : M A) (handler : Error -> M A) : M A :=
  fun p => match body p with
           | (Returned a, p') => (Returned a, p')
           | (Thrown e, p') => handler e p'
           end.
Definition lift {A} (o : Outcome A) : M A := fun p => (o, p).

Declare Scope method_scope.
Delimit Scope method_scope with method.
Notation "x <- c ;; k" := (bind c (fun x => k))
  (at level 61, c at next level, right associativity) : method_scope.
Notation "c ;;; k" := (bind c (fun _ => k))
  (at level 61, right associativity) : method_scope.

Definition this_events : M (list Event) := fun p => (Returned (events p), p).
Definition this_settings : M ICSReaderSettings :=
  fun p => (Returned (settings p), p).
(** [this.events = evs] *)
Definition set_events (evs : list Event) : M unit :=
  fun p => (Returned tt,
            {| settings := settings p; events := evs; notices := notices p |}).
(** [this.events.push(...evs)] *)
Definition push_events (evs : list Event) : M unit :=
  fun p => (Returned tt,
            {| settings := settings p; events := events p ++ evs;
               notices := notices p |}).
(** [new Notice(text)] *)
Definition Notice (text : string) : M unit :=
  fun p => (Returned tt,
            {| settings := settings p; events := events p;
               notices := notices p ++ [text] |}).

Definition with_events (p : Plugin) (evs : list Event) : Plugin :=
  {| settings := settings p; events := evs; notices := notices p |}.

(** [sub] is [l] with some elements left out, the others in their order. *)
Inductive Subsequence {A : Type} : list A -> list A -> Prop :=
| sub_nil : Subsequence [] []
| sub_skip x sub l : Subsequence sub l -> Subsequence sub (x :: l)
| sub_keep x sub l : Subsequence sub l -> Subsequence (x :: sub) (x :: l).

Definition result {A} (r : Outcome A * Plugin) : Outcome A := fst r.
Definition after {A} (r : Outcome A * Plugin) : Plugin := snd r.

(** The time zone of the process: the offset of local time from UTC, in
    milliseconds, at a UTC time value (with its daylight saving). *)
Class TimeZone : Type := { LocalTZA : Z -> Z }.

Section Methods.

Context {zone : TimeZone} {ical : ICAL} {vault : Vault}.

Definition LocalTime (t : Z) : Z := t + LocalTZA t.

(** [d.toDateString()]: the text of the local day, or "Invalid Date". *)
Definition toDateString (d : Date) : string :=
  match d with
  | InvalidDate => "Invalid Date"
  | DateOf tv => DateText.DateString (LocalTime tv)
  end.

(** [d.getFullYear()], [d.getMonth()], [d.getDate()]: [None] is NaN. *)
Definition getFullYear (d : Date) : option Z :=
  match d with
  | InvalidDate => None
  | DateOf tv => Some (Calendar.YearFromTime (LocalTime tv))
  end.
Definition getMonth (d : Date) : option Z :=
  match d with
  | InvalidDate => None
  | DateOf tv => Some (Calendar.MonthFromTime (LocalTime tv))
  end.
Definition getDate (d : Date) : option Z :=
  match d with
  | InvalidDate => None
  | DateOf tv => Some (Calendar.DateFromTime (LocalTime tv))
  end.

(** [format(d, 'HH:mm')] of date-fns: hours and minutes of the local
    clock on two digits each; an invalid date is refused. *)
Definition format_HHmm (d : Date) : Outcome string :=
  match d with
  | InvalidDate => Thrown (RangeError "Invalid time value")
  | DateOf tv => Returned (DateText.HHmm (LocalTime tv))
  end.

(** The callback of [vevents.map] in [loadEvents] (lines 128-135): the
    object literal reads the summary, then the start, then the end; the
    call of [toJSDate] on a null date throws. *)
Definition toEvent (vevent : Component) : Outcome Event :=
  let event := vevent in
  let summary_ := Event_summary event in
  (startDate <- deref "toJSDate" (Event_startDate event) ;;
   endDate <- deref "toJSDate" (Event_endDate event) ;;
   Returned {| summary := summary_;
               start := toJSDate startDate;
               end_ := toJSDate endDate |})%outcome.

(** The body of the inner [try] of [loadEvents] after the file is read
    (lines 115-135).  The events are pushed once [map] has returned. *)
Definition fileBody (icsData : string) : M unit :=
  ((if parse_is_function then ret tt
    else throw (OtherError "ICAL.parse is not a function")) ;;;
   jcalData <- lift (parse icsData) ;;
   comp <- lift (newComponent jcalData) ;;
   let vevents := getAllSubcomponents comp "vevent" in
   mapped <- lift (array_map toEvent vevents) ;;
   push_events mapped)%method.

(** One turn of the loop over the files (lines 111-139): the inner [try]
    and its [catch], which logs the error and goes on. *)
Definition processFile (file : TFile) : M unit :=
  tryCatch
    (icsData <- lift (read file) ;; fileBody icsData)%method
    (fun fileError => ret tt).

Fixpoint forEachFile (icsFiles : list TFile) : M unit :=
  match icsFiles with
  | [] => ret tt
  | file :: rest => (processFile file ;;; forEachFile rest)%method
  end.

(** The files of the vault whose path starts with the directory, with
    extension ics (line 107). *)
Definition icsFilesOf (icsDirectory : string) : list TFile :=
  filter (fun file => String.prefix icsDirectory (path file)
                      && (extension file =? "ics")%string)
         getFiles.

(** [`Loaded ${this.events.length} events from ICS files.`] *)
Definition loadedText (evs : list Event) : string :=
  "Loaded " ++ DateText.decimal (N.of_nat (List.length evs))
  ++ " events from ICS files.".

Definition notSetText : string :=
  "ICS directory not set. Please configure in settings.".

Definition loadedNotice : M unit :=
  (evs <- this_events ;; Notice (loadedText evs))%method.

Definition errorNotice (error : Error) : M unit :=
  Notice "Error loading ICS files. Check console for details.".

(** [loadEvents()] (lines 97-147).  A directory that is the empty string
    is falsy; nothing in the outer [try] throws outside the inner one. *)
Definition loadEvents : M unit :=
  (s <- this_settings ;;
   let icsDirectory := icsDirectory s in
   if (icsDirectory =? "")%string then
     Notice notSetText
   else
     tryCatch
       (let icsFiles := icsFilesOf icsDirectory in
        set_events [] ;;;
        forEachFile icsFiles ;;;
        loadedNotice)
       errorNotice)%method.

(** [getEventsForDate(date)] (lines 211-216) *)
Definition getEventsForDate (date : Date) : M (list Event) :=
  (evs <- this_events ;;
   ret (filter (fun event =>
                  let eventDate := newDate (start event) in
                  (toDateString eventDate =? toDateString date)%string)
               evs))%method.

(** [getTodaysEvents()] (lines 187-193); [now] is the time value that
    [new Date()] gets from the clock. *)
Definition getTodaysEvents (now : Z) : M (list Event) :=
  (let today := DateOf now in
   evs <- this_events ;;
   ret (filter (fun event =>
                  let eventDate := newDate (start event) in
                  (toDateString eventDate =? toDateString today)%string)
               evs))%method.

Definition tableHeader : string :=
  "| Time | Event |" ++ nl ++ "|------|-------|" ++ nl.

(** One turn of [forEach] in the renderers (lines 70-73, 202-205 and
    225-228, the same text): appends the row of [event]. *)
Definition appendRow (eventString : Outcome string) (event : Event)
  : Outcome string :=
  (s <- eventString ;;
   startTime <- format_HHmm (start event) ;;
   Returned (s ++ "| " ++ startTime ++ " | " ++ summary event ++ " |" ++ nl)
  )%outcome.

(** [formatEvents(events)] (lines 219-231) *)
Definition formatEvents (events : list Event) : Outcome string :=
  if (List.length events =? 0)%nat then
    Returned "No events for this date."
  else
    fold_left appendRow events (Returned tableHeader).

(** The rendering in [getTodaysEventsForTemplater] (lines 197-207), from
    [todaysEvents] on. *)
Definition renderTodaysEvents (todaysEvents : list Event) : Outcome string :=
  let eventString := "" in
  if (List.length todaysEvents =? 0)%nat then
    let eventString := "No events for today." in
    Returned eventString
  else
    let eventString := tableHeader in
    fold_left appendRow todaysEvents (Returned eventString).

(** [getTodaysEventsForTemplater()] (lines 195-208) *)
Definition getTodaysEventsForTemplater (now : Z) : M string :=
  (todaysEvents <- getTodaysEvents now ;;
   lift (renderTodaysEvents todaysEvents))%method.

(** The callback of command 'get-todays-events-for-templater', registered
    in [onload] (lines 63-77). *)
Definition templaterCommand (now : Z) : M string :=
  (todaysEvents <- getTodaysEvents now ;;
   let eventString := "" in
   if (List.length todaysEvents =? 0)%nat then
     ret "No events for today."
   else
     lift (fold_left appendRow todaysEvents (Returned tableHeader)))%method.

(** [insertTodaysEvents] from the target date on (lines 168-169): the
    text that replaces the selection of the editor. *)
Definition insertedText (targetDate : Date) : M string :=
  (evs <- getEventsForDate targetDate ;;
   lift (formatEvents evs))%method.

(** *** The load as the event loop runs it

    [loadEvents] is an async function: it runs until its first [await],
    the read of a file, and gives control back to the host; it is resumed
    when the read has settled, and runs until the next [await] or its
    end.  Between two runs the host may call the queries. *)
Inductive LoadTask : Type :=
| AwaitingRead (file : TFile) (rest : list TFile)
| Settled.

Definition Config : Type := (LoadTask * Plugin)%type.

Definition settle (r : Outcome unit * Plugin) : Config :=
  match r with
  | (Returned _, p) => (Settled, p)
  | (Thrown e, p) => (Settled, after (errorNotice e p))
  end.

Definition enterLoop (icsFiles : list TFile) (p : Plugin) : Config :=
  match icsFiles with
  | [] => settle (loadedNotice p)
  | file :: rest => (AwaitingRead file rest, p)
  end.

(** The call of [loadEvents], up to its first suspension. *)
Definition begin (p : Plugin) : Config :=
  let icsDirectory := icsDirectory (settings p) in
  if (icsDirectory =? "")%string then
    (Settled, after (Notice notSetText p))
  else
    let icsFiles := icsFilesOf icsDirectory in
    enterLoop icsFiles (after (set_events [] p)).

(** The run that follows the read of [file]. *)
Definition resume (file : TFile) (rest : list TFile) (p : Plugin) : Config :=
  match processFile file p with
  | (Returned _, p') => enterLoop rest p'
  | (Thrown e, p') => settle (Thrown e, p')
  end.

Inductive step : Config -> Config -> Prop :=
| step_resume file rest p :
    step (AwaitingRead file rest, p) (resume file rest p).

(** The configurations a load that starts on [p0] goes through. *)
Inductive reached (p0 : Plugin) : Config -> Prop :=
| reached_begin : reached p0 (begin p0)
| reached_step c c' : reached p0 c -> step c c' -> reached p0 c'.

(** What a query for all events sees in a configuration. *)
Definition observed (c : Config) : list Event := events (snd c).

(** The files still to be read in a configuration. *)
Definition pending (c : Config) : list TFile :=
  match fst c with
  | AwaitingRead file rest => file :: rest
  | Settled => []
  end.

(** *** Vocabulary of the properties *)

(** [x === y] on numbers: NaN is equal to nothing. *)
Definition numEq (x y : option Z) : bool :=
  match x, y with
  | Some a, Some b => a =? b
  | _, _ => false
  end.

(** Same year, month and day of the month, in local time. *)
Definition sameLocalDay (a b : Date) : bool :=
  numEq (getFullYear a) (getFullYear b)
  && numEq (getMonth a) (getMonth b)
  && numEq (getDate a) (getDate b).

(** The events whose start is on the day of [date], in their order. *)
Definition eventsOnDate (evs : list Event) (date : Date) : list Event :=
  filter (fun e => sameLocalDay (start e) date) evs.

Definition validStart (e : Event) : Prop := isValid (start e) = true.

(** The local clock of a date, on 24 hours: two digits of the hour, a
    colon, two digits of the minute. *)
Definition localClock (d : Date) : string :=
  match d with
  | InvalidDate => ""
  | DateOf tv =>
      DateText.twoDigits (Calendar.HourFromTime (LocalTime tv)) ++ ":"
      ++ DateText.twoDigits (Calendar.MinFromTime (LocalTime tv))
  end.

Definition tableRow (e : Event) : string :=
  "| " ++ localClock (start e) ++ " | " ++ summary e ++ " |" ++ nl.

Definition tableRows (evs : list Event) : string :=
  fold_right (fun e rest => tableRow e ++ rest) "" evs.

(** A time of the day on 24 hours, as HH:mm. *)
Definition isClock24 (s : string) : Prop :=
  exists h m, 0 <= h < 24 /\ 0 <= m < 60
              /\ s = DateText.twoDigits h ++ ":" ++ DateText.twoDigits m.

(** The event components of a document; an exception when the document
    cannot be read or is not a calendar. *)
Definition componentsOf (file : TFile) : Outcome (list Component) :=
  (icsData <- read file ;;
   _ <- (if parse_is_function then Returned tt
         else Thrown (OtherError "ICAL.parse is not a function")) ;;
   jcalData <- parse icsData ;;
   comp <- newComponent jcalData ;;
   Returned (getAllSubcomponents comp "vevent"))%outcome.

(** The events of a document, one for each of its event components in
    their order; an exception when the document fails. *)
Definition fileEvents (file : TFile) : Outcome (list Event) :=
  (vevents <- componentsOf file ;; array_map toEvent vevents)%outcome.

Definition succeeds (file : TFile) : bool :=
  match fileEvents file with
  | Returned _ => true
  | Thrown _ => false
  end.

(** What a document adds to the collection. *)
Definition contribution (file : TFile) : list Event :=
  match fileEvents file with
  | Returned evs => evs
  | Thrown _ => []
  end.

(** An event component is well formed when the library gives it a start
    date and an end date. *)
Definition wellFormed (c : Component) : bool :=
  match Event_startDate c, Event_endDate c with
  | Some _, Some _ => true
  | _, _ => false
  end.

(** The event of a well-formed event component. *)
Definition eventOf (c : Component) : Event :=
  {| summary := Event_summary c;
     start := match Event_startDate c with
              | Some t => toJSDate t
              | None => InvalidDate
              end;
     end_ := match Event_endDate c with
             | Some t => toJSDate t
             | None => InvalidDate
             end |}.

(** The conversion of an event component returns an event. *)
Definition converts (c : Component) : bool :=
  match toEvent c with
  | Returned _ => true
  | Thrown _ => false
  end.

(** A document gives one event for each of its event components when the
    conversion of every one of them returns, and none when the conversion
    of one of them throws. *)
Definition allOrNothing (file : TFile) : list Event :=
  match componentsOf file with
  | Returned vevents =>
      if forallb converts vevents then map eventOf vevents else []
  | Thrown _ => []
  end.

(** Malformed event components are skipped one by one: a load of a single
    document leaves the events of its well-formed components. *)
Definition skipsMalformedComponents (p : Plugin) : Prop :=
  forall file vevents,
    icsFilesOf (icsDirectory (settings p)) = [file] ->
    componentsOf file = Returned vevents ->
    events (after (loadEvents p)) = map eventOf (filter wellFormed vevents).

(** A query during a load that starts on [p0] sees the collection as it
    was before the load or as it is after. *)
Definition atomicReplacement (p0 : Plugin) : Prop :=
  forall c, reached p0 c ->
    observed c = events p0 \/ observed c = events (after (loadEvents p0)).

(** What holds of every configuration of a load with the directory set:
    the documents before the pending ones are done, and the collection
    holds what they contribute. *)
Definition inProgress (p0 : Plugin) (c : Config) : Prop :=
  exists done,
    (done ++ pending c)%list = icsFilesOf (icsDirectory (settings p0))
    /\ match fst c with
       | AwaitingRead _ _ =>
           snd c = with_events p0 (flat_map contribution done)
       | Settled => snd c = after (loadEvents p0)
       end.

End Methods.

(** ** A small calendar reader for the examples

    The examples below need an instance of [ICAL] to run on.  This one
    reads the lines BEGIN:VEVENT, SUMMARY, DTSTART, DTEND and END:VEVENT of
    a calendar text; as with ical.js, the start date of an event whose
    component has no DTSTART line is null, and the end date of one without
    DTEND line is a copy of its start date. *)
Module MiniICAL.

Record ICALTime : Type := {
  year : Z; month : Z; day : Z;
  hour : Z; minute : Z; second : Z;
  isUTC : bool
}.

Record VEvent : Type := {
  v_summary : option string;
  v_dtstart : option ICALTime;
  v_dtend : option ICALTime
}.

Inductive Comp : Type :=
| VCalendar (vevents : list VEvent)
| VEventComp (v : VEvent).

Fixpoint splitLines (s : string) : list string :=
  match s with
  | EmptyString => [EmptyString]
  | String c r =>
      if (c =? ascii_of_nat 10)%char then EmptyString :: splitLines r
      else match splitLines r with
           | [] => [String c EmptyString]
           | l :: ls => String c l :: ls
           end
  end.

(** The value of a line [name ++ value]. *)
Definition valueOf (name line : string) : option string :=
  if String.prefix name line then
    Some (substring (String.length name)
                    (String.length line - String.length name) line)
  else None.

Definition field (s : string) (from len : nat) : option Z :=
  option_map Z.of_N (DateText.readDecimal (substring from len s)).

(** A date-time value: yyyymmddThhmmss, with Z at the end when in UTC. *)
Definition readDateTime (s : string) : option ICALTime :=
  match field s 0 4, field s 4 2, field s 6 2,
        field s 9 2, field s 11 2, field s 13 2 with
  | Some y, Some mo, Some d, Some h, Some mi, Some sec =>
      if ((substring 8 1 s =? "T")%string
          && (15 <=? String.length s)%nat)%bool then
        Some {| year := y; month := mo; day := d;
                hour := h; minute := mi; second := sec;
                isUTC := (substring 15 1 s =? "Z")%string |}
      else None
  | _, _, _, _, _, _ => None
  end.

Definition emptyVEvent : VEvent :=
  {| v_summary := None; v_dtstart := None; v_dtend := None |}.

Definition setDate (line : string) (k : ICALTime -> VEvent)
  : Outcome VEvent :=
  match readDateTime line with
  | Some t => Returned (k t)
  | None => Thrown (OtherError "invalid date-time value")
  end.

(** One line inside an event component. *)
Definition propertyLine (line : string) (v : VEvent) : Outcome VEvent :=
  match valueOf "SUMMARY:" line, valueOf "DTSTART:" line,
        valueOf "DTEND:" line with
  | Some s, _, _ =>
      Returned {| v_summary := Some s; v_dtstart := v_dtstart v;
                  v_dtend := v_dtend v |}
  | _, Some s, _ =>
      setDate s (fun t => {| v_summary := v_summary v; v_dtstart := Some t;
                             v_dtend := v_dtend v |})
  | _, _, Some s =>
      setDate s (fun t => {| v_summary := v_summary v;
                             v_dtstart := v_dtstart v; v_dtend := Some t |})
  | None, None, None => Returned v
  end.

Fixpoint readLines (lines : list string) (current : option VEvent)
         (done : list VEvent) : Outcome (list VEvent) :=
  match lines with
  | [] =>
      match current with
      | None => Returned done
      | Some _ => Thrown (OtherError "unterminated component")
      end
  | line :: rest =>
      match current with
      | None =>
          if (line =? "BEGIN:VEVENT")%string
          then readLines rest (Some emptyVEvent) done
          else readLines rest None done
      | Some v =>
          if (line =? "END:VEVENT")%string
          then readLines rest None (done ++ [v])
          else (v' <- propertyLine line v ;;
                readLines rest (Some v') done)%outcome
      end
  end.

Definition parseText (icsData : string) : Outcome (list VEvent) :=
  match splitLines icsData with
  | first :: rest =>
      if (first =? "BEGIN:VCALENDAR")%string then readLines rest None []
      else Thrown (OtherError "invalid ical body")
  | [] => Thrown (OtherError "invalid ical body")
  end.

(** The time value of a calendar time, in a zone at [offset] milliseconds
    from UTC. *)
Definition timeValue (offset : Z) (t : ICALTime) : Date :=
  let days := Calendar.days_from_civil
                (Calendar.mkCivil (year t) (month t) (day t)) in
  let local := days * Calendar.msPerDay + hour t * Calendar.msPerHour
               + minute t * Calendar.msPerMinute + second t * 1000 in
  DateOf (if isUTC t then local else local - offset).

Definition events_of (c : Comp) (name : string) : list Comp :=
  match c with
  | VCalendar vevents =>
      if (name =? "vevent")%string then map VEventComp vevents else []
  | VEventComp _ => []
  end.

Definition summary_of (c : Comp) : string :=
  match c with
  | VEventComp v => match v_summary v with Some s => s | None => "" end
  | VCalendar _ => ""
  end.

Definition start_of (c : Comp) : option ICALTime :=
  match c with VEventComp v => v_dtstart v | VCalendar _ => None end.

(** The end date: that of DTEND, or else a copy of the start date. *)
Definition end_of (c : Comp) : option ICALTime :=
  match c with
  | VEventComp v =>
      match v_dtend v with
      | Some t => Some t
      | None => v_dtstart v
      end
  | VCalendar _ => None
  end.

Definition lib (offset : Z) : ICAL :=
  {| JCalData := list VEvent;
     Component := Comp;
     ICAL_Time := ICALTime;
     parse_is_function := true;
     parse := parseText;
     newComponent := fun jCal => Returned (VCalendar jCal);
     getAllSubcomponents := events_of;
     Event_summary := summary_of;
     Event_startDate := start_of;
     Event_endDate := end_of;
     toJSDate := timeValue offset |}.

End MiniICAL.

(** ** Example data *)
Module Demo.

(** Central European winter time: one hour ahead of UTC. *)
Definition offset : Z := 3600000.
Definition tz : TimeZone := {| LocalTZA := fun _ => offset |}.

Definition lines (ls : list string) : string := String.concat nl ls.

Definition workText : string :=
  lines ["BEGIN:VCALENDAR";
         "BEGIN:VEVENT";
         "SUMMARY:Standup";
         "DTSTART:20240115T090000";
         "DTEND:20240115T093000";
         "END:VEVENT";
         "END:VCALENDAR"].

Definition teamText : string :=
  lines ["BEGIN:VCALENDAR";
         "BEGIN:VEVENT";
         "SUMMARY:Retro";
         "DTSTART:20240115T160000";
         "DTEND:20240115T170000";
         "END:VEVENT";
         "BEGIN:VEVENT";
         "SUMMARY:Review";
         "DTSTART:20240116T100000";
         "DTEND:20240116T110000";
         "END:VEVENT";
         "END:VCALENDAR"].

(** The second event component has no DTSTART line. *)
Definition mixedText : string :=
  lines ["BEGIN:VCALENDAR";
         "BEGIN:VEVENT";
         "SUMMARY:Standup";
         "DTSTART:20240115T090000";
         "DTEND:20240115T093000";
         "END:VEVENT";
         "BEGIN:VEVENT";
         "SUMMARY:Planning";
         "DTEND:20240115T120000";
         "END:VEVENT";
         "END:VCALENDAR"].

(** The event component is not closed. *)
Definition brokenText : string :=
  lines ["BEGIN:VCALENDAR";
         "BEGIN:VEVENT";
         "SUMMARY:Lost";
         "DTSTART:20240115T130000"].

Definition file (p : string) : TFile := {| path := p; extension := "ics" |}.
Definition workFile : TFile := file "calendars/work.ics".
Definition teamFile : TFile := file "calendars/team.ics".
Definition mixedFile : TFile := file "calendars/mixed.ics".
Definition brokenFile : TFile := file "calendars/broken.ics".
Definition goneFile : TFile := file "calendars/gone.ics".
Definition noteFile : TFile :=
  {| path := "calendars/readme.md"; extension := "md" |}.

(** A vault that holds [files]; of these, [goneFile] cannot be read. *)
Definition vaultOf (files : list TFile) : Vault :=
  {| getFiles := files;
     read := fun f =>
       if (path f =? "calendars/work.ics")%string then Returned workText
       else if (path f =? "calendars/team.ics")%string then Returned teamText
       else if (path f =? "calendars/mixed.ics")%string
         then Returned mixedText
       else if (path f =? "calendars/broken.ics")%string
         then Returned brokenText
       else Thrown (OtherError "file not found") |}.

Definition at_ (y mo d h mi : Z) : Date :=
  MiniICAL.timeValue offset
    {| MiniICAL.year := y; MiniICAL.month := mo; MiniICAL.day := d;
       MiniICAL.hour := h; MiniICAL.minute := mi; MiniICAL.second := 0;
       MiniICAL.isUTC := false |}.

Definition standup : Event :=
  {| summary := "Standup"; start := at_ 2024 1 15 9 0;
     end_ := at_ 2024 1 15 9 30 |}.
Definition retro : Event :=
  {| summary := "Retro"; start := at_ 2024 1 15 16 0;
     end_ := at_ 2024 1 15 17 0 |}.
Definition review : Event :=
  {| summary := "Review"; start := at_ 2024 1 16 10 0;
     end_ := at_ 2024 1 16 11 0 |}.
Definition stale : Event :=
  {| summary := "Stale"; start := at_ 2023 12 24 18 0;
     end_ := at_ 2023 12 24 19 0 |}.

Definition configured (evs : list Event) : Plugin :=
  {| settings := {| icsDirectory := "calendars" |};
     events := evs; notices := [] |}.

Definition unconfigured (evs : list Event) : Plugin :=
  {| settings := DEFAULT_SETTINGS; events := evs; notices := [] |}.

(** The calendar reader in the time zone of the examples. *)
Definition lib : ICAL := MiniICAL.lib offset.

(** A vault with a document of one event, a file that is no calendar, a
    document that is cut short, a file that cannot be read, a document with
    an event component without start, and a document of two events. *)
Definition mixedVault : Vault :=
  vaultOf [workFile; noteFile; brokenFile; goneFile; mixedFile; teamFile].

(** A vault with the document that has an event component without start
    alone. *)
Definition oneMixedVault : Vault := vaultOf [mixedFile].

(** A vault with two documents, and a load of it over a collection that
    holds a stale event, after the first document is read. *)
Definition twoVault : Vault := vaultOf [workFile; teamFile].

Definition halfway : Config :=
  resume (ical := lib) (vault := twoVault) workFile [teamFile]
         (with_events (configured [stale]) []).

End Demo.

(** ** The rest of the plugin *)

From Stdlib Require Import Permutation.

(** *** The date written in a note *)

(** What [new Date(text)] gives for a text yyyy-mm-dd that is not of the
    ISO form, its month or its day being out of range, and whose first
    number is one of 1 to 31: the engine then reads the three numbers in
    its own way (V8 as a month, a day and a year, in local time). *)
Class LegacyParser : Type := { legacyDate : string -> Date }.

Module NoteDate.

(** [\d]: a decimal digit. *)
Definition isDigit (c : ascii) : bool :=
  let n := nat_of_ascii c in ((48 <=? n) && (n <=? 57))%nat.

(** [\s], for the characters below 256 that a string holds here: tab, line
    feed, vertical tab, form feed, carriage return, space and no-break
    space. *)
Definition isSpace (c : ascii) : bool :=
  let n := nat_of_ascii c in
  (((9 <=? n) && (n <=? 13)) || (n =? 32) || (n =? 160))%nat.

(** [pre] taken off the start of [s]. *)
Fixpoint dropPrefix (pre s : string) : option string :=
  match pre, s with
  | EmptyString, _ => Some s
  | String a pre', String b s' =>
      if (a =? b)%char then dropPrefix pre' s' else None
  | String _ _, EmptyString => None
  end.

(** [\s*]: the spaces at the start of [s] are passed.  What follows in the
    pattern is a digit, so giving back a space never helps. *)
Fixpoint skipSpaces (s : string) : string :=
  match s with
  | EmptyString => EmptyString
  | String c rest => if isSpace c then skipSpaces rest else s
  end.

(** [(\d{4}-\d{2}-\d{2})] at the start of [s]: the ten characters. *)
Definition takeDate (s : string) : option string :=
  match s with
  | String y1 (String y2 (String y3 (String y4 (String h1
      (String m1 (String m2 (String h2 (String d1 (String d2 _))))))))) =>
      if isDigit y1 && isDigit y2 && isDigit y3 && isDigit y4
         && (h1 =? "-")%char && isDigit m1 && isDigit m2
         && (h2 =? "-")%char && isDigit d1 && isDigit d2
      then Some (String y1 (String y2 (String y3 (String y4 (String h1
                   (String m1 (String m2 (String h2 (String d1
                      (String d2 EmptyString))))))))))
      else None
  | _ => None
  end.

(** The pattern [date:\s*(\d{4}-\d{2}-\d{2})] at the start of [s]: what
    the group holds. *)
Definition matchDateAt (s : string) : option string :=
  match dropPrefix "date:" s with
  | Some rest => takeDate (skipSpaces rest)
  | None => None
  end.

(** [s.match(/date:\s*(\d{4}-\d{2}-\d{2})/)]: the group of the match that
    starts first in [s], [None] for null. *)
Fixpoint matchDate (s : string) : option string :=
  match matchDateAt s with
  | Some d => Some d
  | None =>
      match s with
      | EmptyString => None
      | String _ rest => matchDate rest
      end
  end.

Definition digitValue (c : ascii) : Z := Z.of_nat (nat_of_ascii c) - 48.

(** [new Date(text)] for a text yyyy-mm-dd.  With a month of 1 to 12 and a
    day of 1 to 31 the text is of the ISO form: the start of that day in
    UTC (a day up to 31 that the month does not have runs over into the
    next month, as in V8, the engine of the host).  Any other text is left
    to the legacy parser of the engine, which takes a first number of 1 to
    31 for a month or a day, and refuses the text, an invalid date, when
    the year is 0 or above 31. *)
Definition dateOfText {legacy : LegacyParser} (text : string) : Date :=
  match text with
  | String y1 (String y2 (String y3 (String y4 (String _
      (String m1 (String m2 (String _ (String d1 (String d2 _))))))))) =>
      let y := 1000 * digitValue y1 + 100 * digitValue y2
               + 10 * digitValue y3 + digitValue y4 in
      let m := 10 * digitValue m1 + digitValue m2 in
      let d := 10 * digitValue d1 + digitValue d2 in
      if (1 <=? m) && (m <=? 12) && (1 <=? d) && (d <=? 31) then
        DateOf (Calendar.days_from_civil (Calendar.mkCivil y m d)
                * Calendar.msPerDay)
      else if (1 <=? y) && (y <=? 31) then legacyDate text
      else InvalidDate
  | _ => InvalidDate
  end.

(** The text yyyy-mm-dd of a year, a month and a day. *)
Definition isoText (y m d : Z) : string :=
  DateText.ToZeroPaddedDecimalString y 4 ++ "-"
  ++ DateText.ToZeroPaddedDecimalString m 2 ++ "-"
  ++ DateText.ToZeroPaddedDecimalString d 2.

(** The four digits of a number below 10000. *)
Definition fourDigits (y : Z) : string :=
  String (DateText.digit (y / 1000))
    (String (DateText.digit (y / 100 mod 10))
       (String (DateText.digit (y / 10 mod 10))
          (String (DateText.digit (y mod 10)) EmptyString))).

Definition allSpaces (ws : string) : Prop :=
  forall c, In c (list_ascii_of_string ws) -> isSpace c = true.

(** [d] is a text of the form of a date, and [s] starts with the pattern,
    [d] in its group. *)
Definition isDateText (d : string) : Prop := takeDate d = Some d.

Definition MatchAt (s d : string) : Prop :=
  exists ws post,
    s = "date:" ++ ws ++ d ++ post /\ allSpaces ws /\ isDateText d.

End NoteDate.

(** What [loadData()] gives back of the saved settings: the directory, when
    the saved object has the key. *)
Record SavedData : Type := { saved_icsDirectory : option string }.

Section MoreMethods.

Context {zone : TimeZone} {ical : ICAL} {vault : Vault}.
Context {legacy : LegacyParser}.

(** [Object.assign({}, DEFAULT_SETTINGS, data)]: the keys of [data], when
    there are data, go over the defaults. *)
Definition assignSettings (defaults : ICSReaderSettings)
           (data : option SavedData) : ICSReaderSettings :=
  match data with
  | Some {| saved_icsDirectory := Some dir |} => {| icsDirectory := dir |}
  | _ => defaults
  end.

(** [loadSettings()] (lines 178-181); [data] is what [loadData()] gives. *)
Definition loadSettings (data : option SavedData) : M unit :=
  fun p => (Returned tt,
            {| settings := assignSettings DEFAULT_SETTINGS data;
               events := events p; notices := notices p |}).

(** [saveSettings()] (lines 183-185): what is handed to [saveData]. *)
Definition saveSettings : M SavedData :=
  (s <- this_settings ;;
   ret {| saved_icsDirectory := Some (icsDirectory s) |})%method.

(** The start of [onload()] (lines 40-41): the settings are loaded, then
    the events; what follows registers commands and does not touch the
    fields. *)
Definition onload (data : option SavedData) : M unit :=
  (loadSettings data ;;; loadEvents)%method.

(** The callback of command 'refresh-ics-events' (lines 54-57), which is
    also that of the button of the settings tab (lines 280-283). *)
Definition refreshCommand : M unit :=
  (loadEvents ;;; Notice "ICS events refreshed")%method.

(** [insertTodaysEvents(editor)] (lines 149-172).  [activeFile] is what
    [getActiveFile()] gives, [None] for null; what is returned is the text
    handed to [editor.replaceSelection].  A date object is truthy, also
    when it is invalid, so [now] is used only when the text has no date. *)
Definition insertTodaysEvents (activeFile : option TFile) (now : Z)
  : M string :=
  (targetDate <-
     match activeFile with
     | Some file =>
         frontmatter <- lift (read file) ;;
         let dateMatch := NoteDate.matchDate frontmatter in
         ret (match dateMatch with
              | Some group1 => Some (NoteDate.dateOfText group1)
              | None => None
              end)
     | None => ret None
     end ;;
   let targetDate := match targetDate with
                     | Some d => d
                     | None => DateOf now
                     end in
   evs <- getEventsForDate targetDate ;;
   eventString <- lift (formatEvents evs) ;;
   ret eventString)%method.

(** The events that start on the local day of number [day]. *)
Definition startsOnDay (day : Z) (e : Event) : bool :=
  match start e with
  | InvalidDate => false
  | DateOf tv => Calendar.Day (LocalTime tv) =? day
  end.

(** The table of events, or the text that there are none. *)
Definition renderTable (evs : list Event) : string :=
  match evs with
  | [] => "No events for this date."
  | _ :: _ => tableHeader ++ tableRows evs
  end.

(** *** Two loads at once

    Nothing keeps a load from being started while another is suspended:
    both then run on the same plugin, each resumed when its read has
    settled. *)
Record Duo : Type := {
  first : LoadTask;
  second : LoadTask;
  shared : Plugin
}.

Inductive duo_step : Duo -> Duo -> Prop :=
| duo_first file rest t p :
    duo_step {| first := AwaitingRead file rest; second := t; shared := p |}
             {| first := fst (resume file rest p); second := t;
                shared := snd (resume file rest p) |}
| duo_second file rest t p :
    duo_step {| first := t; second := AwaitingRead file rest; shared := p |}
             {| first := t; second := fst (resume file rest p);
                shared := snd (resume file rest p) |}.

(** A second load is started while the first is in configuration [c]. *)
Definition overlap (c : Config) : Duo :=
  {| first := fst c; second := fst (begin (snd c));
     shared := snd (begin (snd c)) |}.

Inductive duo_reached (c : Config) : Duo -> Prop :=
| duo_begin : duo_reached c (overlap c)
| duo_next d d' : duo_reached c d -> duo_step d d' -> duo_reached c d'.

Definition pendingOf (t : LoadTask) : list TFile :=
  match t with
  | AwaitingRead file rest => file :: rest
  | Settled => []
  end.

(** What holds of two loads at once, the first of which had the files
    [left] to read when the second was started: each has read some of its
    files, and the collection holds what those files contribute, in some
    order. *)
Definition duoInvariant (left : list TFile) (dir : string) (d : Duo) : Prop :=
  exists doneFirst doneSecond,
    (doneFirst ++ pendingOf (first d))%list = left
    /\ (doneSecond ++ pendingOf (second d))%list = icsFilesOf dir
    /\ Permutation (events (shared d))
                   (flat_map contribution doneFirst
                    ++ flat_map contribution doneSecond).

End MoreMethods.

(** ** More example data *)
Module DemoMore.
Import Demo.

Definition noteText : string :=
  lines ["---"; "title: Daily"; "date: 2024-01-15"; "---"; "Notes"].

(** The word update ends in date. *)
Definition updateText : string :=
  lines ["---"; "update: 2023-12-24"; "date: 2024-01-15"; "---"].

Definition wrongMonthText : string :=
  lines ["---"; "date: 2024-13-45"; "---"].

Definition plainText : string := lines ["Notes"; "of the day"].

Definition noteFile (p : string) : TFile :=
  {| path := p; extension := "md" |}.

(** A vault of notes, and of the calendars of [mixedVault]. *)
Definition noteVault : Vault :=
  {| getFiles := [workFile; teamFile; noteFile "daily.md"];
     read := fun f =>
       if (path f =? "daily.md")%string then Returned noteText
       else if (path f =? "update.md")%string then Returned updateText
       else if (path f =? "wrong.md")%string then Returned wrongMonthText
       else if (path f =? "plain.md")%string then Returned plainText
       else read (Vault := mixedVault) f |}.

(** New York in winter: five hours behind UTC. *)
Definition westOffset : Z := -18000000.
Definition west : TimeZone := {| LocalTZA := fun _ => westOffset |}.

(** The legacy parser of V8 on a text nnnn-nn-nn, in a zone at [offset]
    milliseconds from UTC: the first number is the month, the second the
    day, and the third the year, of this century up to 49 and of the last
    from 50 on; the date is the start of that day in local time. *)
Definition legacyOf (offset : Z) : LegacyParser :=
  {| legacyDate := fun text =>
       match text with
       | String y1 (String y2 (String y3 (String y4 (String _
           (String m1 (String m2 (String _ (String d1 (String d2 _)))))))))
         =>
           let first := 1000 * NoteDate.digitValue y1
                        + 100 * NoteDate.digitValue y2
                        + 10 * NoteDate.digitValue y3
                        + NoteDate.digitValue y4 in
           let second := 10 * NoteDate.digitValue m1
                         + NoteDate.digitValue m2 in
           let third := 10 * NoteDate.digitValue d1
                        + NoteDate.digitValue d2 in
           if (1 <=? first) && (first <=? 12)
              && (1 <=? second) && (second <=? 31) then
             let year := if third <=? 49 then 2000 + third
                         else 1900 + third in
             DateOf (Calendar.days_from_civil
                       (Calendar.mkCivil year first second)
                     * Calendar.msPerDay - offset)
           else InvalidDate
       | _ => InvalidDate
       end |}.

Definition legacy : LegacyParser := legacyOf offset.
Definition westLegacy : LegacyParser := legacyOf westOffset.

(** A calendar whose event has no DTEND line. *)
Definition openText : string :=
  lines ["BEGIN:VCALENDAR";
         "BEGIN:VEVENT";
         "SUMMARY:Standup";
         "DTSTART:20240115T090000";
         "END:VEVENT";
         "END:VCALENDAR"].

Definition openFile : TFile := file "calendars/open.ics".

Definition openVault : Vault :=
  {| getFiles := [openFile];
     read := fun f =>
       if (path f =? "calendars/open.ics")%string then Returned openText
       else read (Vault := mixedVault) f |}.

(** An event of 14 January 2024, at 15:00 in UTC, which is 10:00 in New
    York. *)
Definition brunch : Event :=
  {| summary := "Brunch"; start := DateOf 1705244400000;
     end_ := DateOf 1705248000000 |}.

(** An event whose dates are invalid. *)
Definition broken : Event :=
  {| summary := "Broken"; start := InvalidDate; end_ := InvalidDate |}.

(** Noon of 15 January 2024 in the time zone of the examples. *)
Definition noon : Z := 1705316400000.

(** A vault with a calendar in a directory whose name starts as the name
    of the directory of the settings does. *)
Definition archiveFile : TFile := file "calendars-archive/team.ics".

Definition siblingVault : Vault :=
  {| getFiles := [workFile; archiveFile];
     read := fun f =>
       if (path f =? "calendars-archive/team.ics")%string
       then Returned teamText
       else read (Vault := mixedVault) f |}.

(** The first load of [twoVault] at its first suspension. *)
Definition suspended : Plugin := with_events (configured [stale]) [].

End DemoMore.

(** * Properties *)

(** ** The calendar *)
Module CalendarFacts.
Import Calendar.

Lemma check_range_sound (f : Z -> bool) (len : positive) :
  forall lo, check_range f lo len = true ->
  forall x, lo <= x < lo + Z.pos len -> f x = true.
Proof.
  induction len as [p IH | p IH | ]; intros lo Hc x Hx; simpl in Hc.
  - apply andb_true_iff in Hc as [Hc H2].
    apply andb_true_iff in Hc as [H0 H1].
    destruct (Z.eq_dec x lo) as [-> | Hne]; [exact H0 |].
    destruct (Z_lt_le_dec x (lo + 1 + Z.pos p)) as [Hlt | Hge].
    + apply (IH (lo + 1) H1). lia.
    + apply (IH (lo + 1 + Z.pos p) H2). lia.
  - apply andb_true_iff in Hc as [H1 H2].
    destruct (Z_lt_le_dec x (lo + Z.pos p)) as [Hlt | Hge].
    + apply (IH lo H1). lia.
    + apply (IH (lo + Z.pos p) H2). lia.
  - assert (x = lo) by lia. subst x. exact Hc.
Qed.

(** What the conversion needs of the day of the era. *)
Lemma yoe_bounds (doe : Z) :
  0 <= doe < daysPerEra -> 0 <= yoe_of_doe doe < 400.
Proof.
  unfold daysPerEra, yoe_of_doe. intros H.
  Z.to_euclidean_division_equations. lia.
Qed.

Lemma doy_bounds (doe : Z) :
  0 <= doe < daysPerEra -> 0 <= doy_of_doe doe <= 365.
Proof.
  unfold daysPerEra, doy_of_doe, yoe_of_doe. intros H. cbv zeta.
  Z.to_euclidean_division_equations. lia.
Qed.

Lemma mp_dom_bounds (doy : Z) :
  0 <= doy <= 365 ->
  0 <= mp_of_doy doy < 12 /\ 1 <= dom_of_doy doy <= 31.
Proof.
  unfold dom_of_doy, mp_of_doy. intros H.
  Z.to_euclidean_division_equations. lia.
Qed.

Lemma doe_bounds (doe : Z) :
  0 <= doe < daysPerEra ->
  0 <= yoe_of_doe doe < 400
  /\ 0 <= mp_of_doy (doy_of_doe doe) < 12
  /\ 1 <= dom_of_doy (doy_of_doe doe) <= 31.
Proof.
  intros H. split; [now apply yoe_bounds |].
  apply mp_dom_bounds. now apply doy_bounds.
Qed.

Lemma month_of_mp_range (mp : Z) :
  0 <= mp < 12 -> 1 <= month_of_mp mp <= 12.
Proof.
  intros H. unfold month_of_mp. destruct (Z.ltb_spec mp 10); lia.
Qed.

Lemma month_of_mp_back (mp : Z) :
  0 <= mp < 12 -> (month_of_mp mp + 9) mod 12 = mp.
Proof.
  intros H. unfold month_of_mp. destruct (Z.ltb_spec mp 10).
  - replace (mp + 3 + 9) with (mp + 1 * 12) by lia.
    rewrite Z.mod_add by lia. apply Z.mod_small. lia.
  - replace (mp - 9 + 9) with mp by lia. apply Z.mod_small. lia.
Qed.

(** The day number is recovered from the date. *)
Theorem days_from_civil_from_days (z : Z) :
  days_from_civil (civil_from_days z) = z.
Proof.
  unfold civil_from_days, days_from_civil. cbn [c_year c_month c_day].
  set (z' := z + eraShift).
  assert (Hdoe : 0 <= z' mod daysPerEra < daysPerEra)
    by (apply Z.mod_pos_bound; reflexivity).
  destruct (doe_bounds _ Hdoe) as (Hyoe & Hmp & Hdom).
  set (doe := z' mod daysPerEra) in *.
  set (era := z' / daysPerEra).
  set (yoe := yoe_of_doe doe) in *.
  set (doy := doy_of_doe doe) in *.
  set (mp := mp_of_doy doy) in *.
  rewrite month_of_mp_back by assumption.
  set (b := if month_of_mp mp <=? 2 then 1 else 0).
  replace (yoe + era * 400 + b - b) with (yoe + era * 400) by lia.
  rewrite Z.div_add by lia. rewrite Z.mod_add by lia.
  rewrite (Z.div_small yoe 400) by lia.
  rewrite (Z.mod_small yoe 400) by lia.
  assert (Hz : z' = daysPerEra * era + doe)
    by (apply Z.div_mod; discriminate).
  assert (Hdoy : doy = doe - (365 * yoe + yoe / 4 - yoe / 100))
    by reflexivity.
  unfold dom_of_doy. fold mp.
  unfold z' in Hz. lia.
Qed.

Corollary civil_from_days_inj (z1 z2 : Z) :
  civil_from_days z1 = civil_from_days z2 -> z1 = z2.
Proof.
  intros H.
  rewrite <- (days_from_civil_from_days z1), <- (days_from_civil_from_days z2).
  now rewrite H.
Qed.

Lemma civil_month_range (z : Z) : 1 <= c_month (civil_from_days z) <= 12.
Proof.
  unfold civil_from_days. cbn [c_month].
  apply month_of_mp_range.
  apply doe_bounds. apply Z.mod_pos_bound. reflexivity.
Qed.

Lemma civil_day_range (z : Z) : 1 <= c_day (civil_from_days z) <= 31.
Proof.
  unfold civil_from_days. cbn [c_day].
  apply doe_bounds. apply Z.mod_pos_bound. reflexivity.
Qed.

Lemma MonthFromTime_range (t : Z) : 0 <= MonthFromTime t < 12.
Proof. unfold MonthFromTime. pose proof (civil_month_range (Day t)). lia. Qed.

Lemma DateFromTime_range (t : Z) : 1 <= DateFromTime t <= 31.
Proof. unfold DateFromTime. apply civil_day_range. Qed.

Lemma WeekDay_range (t : Z) : 0 <= WeekDay t < 7.
Proof. unfold WeekDay. apply Z.mod_pos_bound. reflexivity. Qed.

Lemma HourFromTime_range (t : Z) : 0 <= HourFromTime t < 24.
Proof. unfold HourFromTime. apply Z.mod_pos_bound. reflexivity. Qed.

Lemma MinFromTime_range (t : Z) : 0 <= MinFromTime t < 60.
Proof. unfold MinFromTime. apply Z.mod_pos_bound. reflexivity. Qed.

(** Two time values have the same year, month and day of the month
    exactly when they lie in the same day. *)
Lemma same_civil_iff_same_Day (t1 t2 : Z) :
  (YearFromTime t1 = YearFromTime t2
   /\ MonthFromTime t1 = MonthFromTime t2
   /\ DateFromTime t1 = DateFromTime t2)
  <-> Day t1 = Day t2.
Proof.
  unfold YearFromTime, MonthFromTime, DateFromTime. split.
  - intros (Hy & Hm & Hd). apply civil_from_days_inj.
    destruct (civil_from_days (Day t1)), (civil_from_days (Day t2)).
    cbn in *. f_equal; lia.
  - intros ->. auto.
Qed.

(** The year is the one ECMAScript defines: the day lies between the
    first day of that year and the first day of the next. *)
Lemma DayFromYear_era (era y : Z) :
  DayFromYear (y + era * 400) = DayFromYear y + era * daysPerEra.
Proof.
  unfold DayFromYear, daysPerEra.
  Z.to_euclidean_division_equations. lia.
Qed.

Lemma DayFromYear_of_doe (doe b : Z) :
  0 <= doe < daysPerEra ->
  (mp_of_doy (doy_of_doe doe) < 10 /\ b = 0
   \/ 10 <= mp_of_doy (doy_of_doe doe) /\ b = 1) ->
  DayFromYear (yoe_of_doe doe + b) <= doe - eraShift
  < DayFromYear (yoe_of_doe doe + b + 1).
Proof.
  unfold daysPerEra, eraShift, DayFromYear, mp_of_doy, doy_of_doe, yoe_of_doe.
  cbv zeta. intros H [[Hmp ->] | [Hmp ->]];
    Z.to_euclidean_division_equations; lia.
Qed.

Theorem YearFromTime_DayFromYear (t : Z) :
  DayFromYear (YearFromTime t) <= Day t < DayFromYear (YearFromTime t + 1).
Proof.
  unfold YearFromTime, civil_from_days. cbn [c_year].
  set (z' := Day t + eraShift).
  assert (Hdoe : 0 <= z' mod daysPerEra < daysPerEra)
    by (apply Z.mod_pos_bound; reflexivity).
  assert (Hz : z' = daysPerEra * (z' / daysPerEra) + z' mod daysPerEra)
    by (apply Z.div_mod; discriminate).
  set (doe := z' mod daysPerEra) in *.
  set (era := z' / daysPerEra) in *.
  set (b := if month_of_mp (mp_of_doy (doy_of_doe doe)) <=? 2 then 1 else 0).
  assert (Hb : mp_of_doy (doy_of_doe doe) < 10 /\ b = 0
               \/ 10 <= mp_of_doy (doy_of_doe doe) /\ b = 1).
  { destruct (doe_bounds doe Hdoe) as (_ & Hmp & _).
    unfold b, month_of_mp.
    destruct (Z.ltb_spec (mp_of_doy (doy_of_doe doe)) 10);
      [left | right]; (split; [assumption |]);
      match goal with |- context [?x <=? 2] => destruct (Z.leb_spec x 2) end;
      lia. }
  pose proof (DayFromYear_of_doe doe b Hdoe Hb) as Hyear.
  replace (yoe_of_doe doe + era * 400 + b)
    with (yoe_of_doe doe + b + era * 400) by lia.
  replace (yoe_of_doe doe + b + era * 400 + 1)
    with (yoe_of_doe doe + b + 1 + era * 400) by lia.
  rewrite !DayFromYear_era. unfold z' in Hz. lia.
Qed.

Example day_of_2024_01_15 :
  civil_from_days 19737 = mkCivil 2024 1 15 /\ WeekDay (19737 * msPerDay) = 1.
Proof. split; reflexivity. Qed.

Example day_before_the_epoch :
  civil_from_days (-1) = mkCivil 1969 12 31.
Proof. reflexivity. Qed.

Example leap_day_of_2000 :
  civil_from_days 11016 = mkCivil 2000 2 29
  /\ civil_from_days 11017 = mkCivil 2000 3 1.
Proof. split; reflexivity. Qed.

(** Hours and minutes are those of the time within the day. *)
Lemma clock_of_TimeWithinDay (t : Z) :
  TimeWithinDay t / msPerMinute = 60 * HourFromTime t + MinFromTime t.
Proof.
  unfold TimeWithinDay, HourFromTime, MinFromTime,
    msPerDay, msPerHour, msPerMinute.
  pose proof (Z.div_mod t 86400000 ltac:(lia)).
  pose proof (Z.mod_pos_bound t 86400000 ltac:(lia)).
  Z.to_euclidean_division_equations. lia.
Qed.

End CalendarFacts.

(** ** The text of a date determines the date *)
Module DateTextFacts.
Import Calendar DateText CalendarFacts.

Lemma append_inj_len (a a' b b' : string) :
  String.length a = String.length a' ->
  (a ++ b = a' ++ b')%string -> a = a' /\ b = b'.
Proof.
  revert a'. induction a as [| c a IH]; intros [| c' a'] Hlen Heq;
    simpl in *; try discriminate.
  - auto.
  - injection Heq as -> Heq. injection Hlen as Hlen.
    destruct (IH a' Hlen Heq) as [-> ->]. auto.
Qed.

Lemma append_length (a b : string) :
  String.length (a ++ b) = (String.length a + String.length b)%nat.
Proof. induction a as [| c a IH]; simpl; [reflexivity | now rewrite IH]. Qed.

Lemma readDecimal_zeros (k : nat) (s : string) :
  readDecimal (zeros k ++ s) = readDecimal s.
Proof.
  unfold readDecimal. induction k as [| k IH]; simpl; [reflexivity |].
  destruct (NilEmpty.uint_of_string (zeros k ++ s)) as [d |] eqn:E;
    destruct (NilEmpty.uint_of_string s) as [d' |]; simpl in *;
    try discriminate; auto.
Qed.

Lemma readDecimal_decimal (n : N) : readDecimal (decimal n) = Some n.
Proof.
  unfold readDecimal, decimal. rewrite NilEmpty.usu. simpl.
  now rewrite DecimalN.Unsigned.of_to.
Qed.

Lemma readDecimal_padded (n : Z) (k : nat) :
  readDecimal (ToZeroPaddedDecimalString n k) = Some (Z.to_N n).
Proof.
  unfold ToZeroPaddedDecimalString.
  rewrite readDecimal_zeros. apply readDecimal_decimal.
Qed.

Lemma padded_inj (n1 n2 : Z) (k : nat) :
  0 <= n1 -> 0 <= n2 ->
  ToZeroPaddedDecimalString n1 k = ToZeroPaddedDecimalString n2 k ->
  n1 = n2.
Proof.
  intros H1 H2 E.
  assert (Some (Z.to_N n1) = Some (Z.to_N n2)) as [= E']
    by (rewrite <- !(readDecimal_padded _ k); now rewrite E).
  lia.
Qed.

Lemma readDecimal_minus (s : string) : readDecimal (String "-" s) = None.
Proof.
  unfold readDecimal. simpl.
  now destruct (NilEmpty.uint_of_string s).
Qed.

Lemma yearText_inj (y1 y2 : Z) : yearText y1 = yearText y2 -> y1 = y2.
Proof.
  unfold yearText.
  destruct (Z.leb_spec 0 y1) as [H1 | H1], (Z.leb_spec 0 y2) as [H2 | H2];
    simpl; intros E.
  - apply padded_inj in E; lia.
  - pose proof (readDecimal_padded (Z.abs y1) 4) as R.
    rewrite E, readDecimal_minus in R. discriminate.
  - pose proof (readDecimal_padded (Z.abs y2) 4) as R.
    rewrite <- E, readDecimal_minus in R. discriminate.
  - injection E as E. apply padded_inj in E; lia.
Qed.

(** Small ranges are settled by computation. *)
Ltac by_range f len :=
  match goal with
  | H : ?lo <= ?x < _ |- _ =>
      let C := fresh "C" in
      assert (C : check_range f lo len = true) by (vm_compute; reflexivity);
      pose proof (check_range_sound f len lo C x ltac:(lia))
  end.

Lemma padded_two_digits (n : Z) :
  0 <= n < 100 -> ToZeroPaddedDecimalString n 2 = twoDigits n.
Proof.
  intros H.
  by_range (fun n => (ToZeroPaddedDecimalString n 2 =? twoDigits n)%string)
           100%positive.
  now apply String.eqb_eq.
Qed.

Lemma padded_two_length (n : Z) :
  0 <= n < 100 -> String.length (ToZeroPaddedDecimalString n 2) = 2%nat.
Proof. intros H. now rewrite padded_two_digits. Qed.

Lemma weekdayName_length (k : Z) : String.length (weekdayName k) = 3%nat.
Proof.
  unfold weekdayName.
  repeat match goal with
         | |- context [if ?b then _ else _] => destruct b
         end; reflexivity.
Qed.

Lemma weekdayName_not_Inv (k : Z) : weekdayName k <> "Inv".
Proof.
  unfold weekdayName.
  repeat match goal with
         | |- context [if ?b then _ else _] => destruct b
         end; discriminate.
Qed.

Lemma monthName_length (m : Z) : String.length (monthName m) = 3%nat.
Proof.
  unfold monthName.
  repeat match goal with
         | |- context [if ?b then _ else _] => destruct b
         end; reflexivity.
Qed.

Lemma monthIndex_monthName (m : Z) :
  0 <= m < 12 -> monthIndex (monthName m) = m.
Proof.
  intros H.
  by_range (fun m => monthIndex (monthName m) =? m) 12%positive.
  now apply Z.eqb_eq.
Qed.

Lemma monthName_inj (m1 m2 : Z) :
  0 <= m1 < 12 -> 0 <= m2 < 12 -> monthName m1 = monthName m2 -> m1 = m2.
Proof.
  intros H1 H2 E.
  rewrite <- (monthIndex_monthName m1 H1), <- (monthIndex_monthName m2 H2).
  now rewrite E.
Qed.

(** The text of the date of a time value gives back its month, its day
    of the month and its year. *)
Lemma DateString_inj (t1 t2 : Z) :
  DateString t1 = DateString t2 ->
  YearFromTime t1 = YearFromTime t2
  /\ MonthFromTime t1 = MonthFromTime t2
  /\ DateFromTime t1 = DateFromTime t2.
Proof.
  unfold DateString. intros E.
  apply append_inj_len in E as [_ E];
    [| now rewrite !weekdayName_length].
  injection E as E.
  apply append_inj_len in E as [Em E];
    [| now rewrite !monthName_length].
  injection E as E.
  pose proof (DateFromTime_range t1) as D1.
  pose proof (DateFromTime_range t2) as D2.
  apply append_inj_len in E as [Ed E];
    [| rewrite !padded_two_length; [reflexivity | lia | lia]].
  injection E as E.
  repeat split.
  - now apply yearText_inj.
  - apply monthName_inj; auto using MonthFromTime_range.
  - apply padded_inj in Ed; lia.
Qed.

Lemma DateString_of_Day (t1 t2 : Z) :
  Day t1 = Day t2 -> DateString t1 = DateString t2.
Proof.
  intros E.
  unfold DateString, WeekDay, MonthFromTime, DateFromTime, YearFromTime.
  now rewrite E.
Qed.

(** Two time values have the same date text exactly when they lie in the
    same day. *)
Theorem DateString_eq_iff (t1 t2 : Z) :
  DateString t1 = DateString t2 <-> Day t1 = Day t2.
Proof.
  split.
  - intros E. apply same_civil_iff_same_Day. now apply DateString_inj.
  - apply DateString_of_Day.
Qed.

Lemma DateString_not_Invalid (t : Z) : DateString t <> "Invalid Date".
Proof.
  unfold DateString. intros E.
  change "Invalid Date" with ("Inv" ++ "alid Date")%string in E.
  apply append_inj_len in E as [E _].
  - now apply weekdayName_not_Inv in E.
  - now rewrite weekdayName_length.
Qed.

(** The text of pattern 'HH:mm' is made of the two digits of the hour, a
    colon and the two digits of the minute. *)
Lemma HHmm_digits (t : Z) :
  HHmm t
  = (twoDigits (HourFromTime t) ++ ":" ++ twoDigits (MinFromTime t))%string.
Proof.
  unfold HHmm.
  pose proof (HourFromTime_range t). pose proof (MinFromTime_range t).
  rewrite !padded_two_digits by lia. reflexivity.
Qed.

Lemma HHmm_length (t : Z) : String.length (HHmm t) = 5%nat.
Proof. rewrite HHmm_digits. reflexivity. Qed.

End DateTextFacts.

(** ** The plugin *)
Section PluginFacts.

Context {zone : TimeZone} {ical : ICAL} {vault : Vault}.


(** *** The date query *)

(** Dates on the same local day are those that lie in the same day once
    the time of the day is cut off. *)
Lemma sameLocalDay_Day (t1 t2 : Z) :
  sameLocalDay (DateOf t1) (DateOf t2) = true
  <-> Calendar.Day (LocalTime t1) = Calendar.Day (LocalTime t2).
Proof.
  rewrite <- CalendarFacts.same_civil_iff_same_Day.
  unfold sameLocalDay, getFullYear, getMonth, getDate, numEq.
  rewrite !andb_true_iff, !Z.eqb_eq. tauto.
Qed.

Lemma sameLocalDay_invalid_l (d : Date) :
  sameLocalDay InvalidDate d = false.
Proof. reflexivity. Qed.

Lemma sameLocalDay_invalid_r (d : Date) :
  sameLocalDay d InvalidDate = false.
Proof. destruct d; reflexivity. Qed.

Lemma toDateString_valid_eqb (t1 t2 : Z) :
  (toDateString (DateOf t1) =? toDateString (DateOf t2))%string
  = sameLocalDay (DateOf t1) (DateOf t2).
Proof.
  apply eq_true_iff_eq.
  rewrite String.eqb_eq, sameLocalDay_Day. simpl.
  apply DateTextFacts.DateString_eq_iff.
Qed.

(** The comparison of [getEventsForDate] decides whether two dates are on
    the same local day, as soon as one of them is a valid date. *)
Lemma toDateString_eqb_sameLocalDay (a b : Date) :
  isValid a = true \/ isValid b = true ->
  (toDateString a =? toDateString b)%string = sameLocalDay a b.
Proof.
  destruct a as [| t1], b as [| t2]; intros [H | H]; try discriminate H.
  - rewrite sameLocalDay_invalid_l. apply String.eqb_neq.
    intros E. symmetry in E. revert E.
    apply DateTextFacts.DateString_not_Invalid.
  - rewrite sameLocalDay_invalid_r. apply String.eqb_neq.
    apply DateTextFacts.DateString_not_Invalid.
  - apply toDateString_valid_eqb.
  - apply toDateString_valid_eqb.
Qed.

(** Two invalid dates have the same text, though neither has a day. *)
Lemma toDateString_invalid :
  (toDateString InvalidDate =? toDateString InvalidDate)%string = true
  /\ sameLocalDay InvalidDate InvalidDate = false.
Proof. split; reflexivity. Qed.

Lemma filter_Subsequence {A : Type} (f : A -> bool) (l : list A) :
  Subsequence (filter f l) l.
Proof.
  induction l as [| x l IH]; simpl.
  - constructor.
  - destruct (f x); now constructor.
Qed.

Lemma Subsequence_In {A : Type} (sub l : list A) :
  Subsequence sub l -> forall x, In x sub -> In x l.
Proof.
  induction 1 as [| y sub l _ IH | y sub l _ IH]; intros x Hx; simpl in *.
  - exact Hx.
  - right. now apply IH.
  - destruct Hx as [-> | Hx]; [now left | right; now apply IH].
Qed.

Lemma getEventsForDate_filter (date : Date) (p : Plugin) :
  getEventsForDate date p
  = (Returned
       (filter (fun e => (toDateString (start e) =? toDateString date)%string)
               (events p)), p).
Proof. reflexivity. Qed.

(** C1. On a collection of events that start at valid dates, or else for a
    target date that is valid, the date query returns the events whose
    start is on the same local day (year, month and day of the month) as
    the target date, all of them and only them, as a subsequence of the
    collection in its order; the plugin is left as it was. *)
Theorem getEventsForDate_same_day (date : Date) (p : Plugin) :
  Forall validStart (events p) \/ isValid date = true ->
  getEventsForDate date p = (Returned (eventsOnDate (events p) date), p)
  /\ Subsequence (eventsOnDate (events p) date) (events p)
  /\ (forall e, In e (eventsOnDate (events p) date)
                <-> In e (events p) /\ sameLocalDay (start e) date = true).
Proof.
  intros Hvalid. rewrite getEventsForDate_filter. split; [| split].
  - f_equal. f_equal. unfold eventsOnDate.
    apply filter_ext_in. intros e He.
    apply toDateString_eqb_sameLocalDay.
    destruct Hvalid as [Hstarts | Hdate]; [left | now right].
    rewrite Forall_forall in Hstarts. now apply Hstarts.
  - apply filter_Subsequence.
  - intros e. apply filter_In.
Qed.

(** C8. Two calls of the date query with the same date, with no load in
    between, return equal sequences, and leave the plugin as it was. *)
Theorem getEventsForDate_twice (date : Date) (p : Plugin) :
  exists evs,
    (first <- getEventsForDate date ;;
     second <- getEventsForDate date ;;
     ret (first, second))%method p
    = (Returned (evs, evs), p).
Proof.
  exists (filter (fun e => (toDateString (start e) =? toDateString date)%string)
                 (events p)).
  unfold bind. rewrite getEventsForDate_filter. reflexivity.
Qed.

(** *** The table *)

Lemma string_app_assoc (a b c : string) :
  ((a ++ b) ++ c = a ++ (b ++ c))%string.
Proof. induction a as [| x a IH]; simpl; [reflexivity | now rewrite IH]. Qed.

Lemma string_app_empty (a : string) : (a ++ "" = a)%string.
Proof. induction a as [| x a IH]; simpl; [reflexivity | now rewrite IH]. Qed.

Lemma format_HHmm_valid (e : Event) :
  validStart e -> format_HHmm (start e) = Returned (localClock (start e)).
Proof.
  unfold validStart. destruct (start e) as [| tv]; [discriminate |].
  intros _. simpl. now rewrite DateTextFacts.HHmm_digits.
Qed.

Lemma appendRow_valid (s : string) (e : Event) :
  validStart e -> appendRow (Returned s) e = Returned (s ++ tableRow e).
Proof.
  intros H. unfold appendRow, tableRow. simpl.
  now rewrite (format_HHmm_valid e H).
Qed.

Lemma appendRow_thrown (err : Error) (e : Event) :
  appendRow (Thrown err) e = Thrown err.
Proof. reflexivity. Qed.

Lemma fold_appendRow_thrown (err : Error) (evs : list Event) :
  fold_left appendRow evs (Thrown err) = Thrown err.
Proof. induction evs as [| e evs IH]; simpl; [reflexivity | exact IH]. Qed.

Lemma fold_appendRow_valid (evs : list Event) :
  Forall validStart evs ->
  forall s, fold_left appendRow evs (Returned s)
            = Returned (s ++ tableRows evs).
Proof.
  induction 1 as [| e evs He _ IH]; intros s;
    cbn [fold_left tableRows fold_right].
  - now rewrite string_app_empty.
  - rewrite (appendRow_valid s e He), IH. now rewrite string_app_assoc.
Qed.

(** Every turn of the loop makes the text longer. *)
Lemma appendRow_longer (s s' : string) (e : Event) :
  appendRow (Returned s) e = Returned s' ->
  (String.length s < String.length s')%nat.
Proof.
  unfold appendRow. simpl.
  destruct (format_HHmm (start e)) as [t |]; simpl; [| discriminate].
  intros [= <-]. rewrite DateTextFacts.append_length. simpl. lia.
Qed.

Lemma fold_appendRow_longer (evs : list Event) :
  forall s s', fold_left appendRow evs (Returned s) = Returned s' ->
               (String.length s + List.length evs <= String.length s')%nat.
Proof.
  induction evs as [| e evs IH]; intros s s' H;
    cbn [fold_left List.length] in *.
  - injection H as <-. lia.
  - destruct (appendRow (Returned s) e) as [s1 |] eqn:E.
    + apply appendRow_longer in E. apply IH in H. lia.
    + rewrite fold_appendRow_thrown in H. discriminate.
Qed.

(** A table has more than its header. *)
Lemma table_longer_than_header (e : Event) (evs : list Event) (s : string) :
  fold_left appendRow (e :: evs) (Returned tableHeader) = Returned s ->
  (String.length tableHeader < String.length s)%nat.
Proof.
  intros H. apply fold_appendRow_longer in H.
  cbn [List.length] in H. lia.
Qed.

Lemma formatEvents_not_bare (evs : list Event) :
  formatEvents evs <> Returned "" /\ formatEvents evs <> Returned tableHeader.
Proof.
  destruct evs as [| e evs]; [split; discriminate |].
  unfold formatEvents. cbn [List.length Nat.eqb].
  split; intros H; apply table_longer_than_header in H;
    [inversion H | exact (Nat.lt_irrefl _ H)].
Qed.

Lemma renderTodaysEvents_not_bare (evs : list Event) :
  renderTodaysEvents evs <> Returned ""
  /\ renderTodaysEvents evs <> Returned tableHeader.
Proof.
  destruct evs as [| e evs]; [split; discriminate |].
  unfold renderTodaysEvents. cbn [List.length Nat.eqb].
  split; intros H; apply table_longer_than_header in H;
    [inversion H | exact (Nat.lt_irrefl _ H)].
Qed.

(** The events of today are read off the plugin, which they leave as it
    was; both call sites render them with [renderTodaysEvents]. *)
Lemma templater_renders (now : Z) (p : Plugin) :
  exists todaysEvents,
    getTodaysEvents now p = (Returned todaysEvents, p)
    /\ getTodaysEventsForTemplater now p
       = (renderTodaysEvents todaysEvents, p)
    /\ templaterCommand now p = (renderTodaysEvents todaysEvents, p).
Proof.
  eexists. split; [reflexivity |]. split; [reflexivity |].
  unfold templaterCommand, bind. simpl.
  unfold renderTodaysEvents.
  match goal with |- context [filter ?f ?l] => destruct (filter f l) end;
    reflexivity.
Qed.

(** C5. Of no events the table renderer returns "No events for this
    date.", and the renderer of the events of today, at its two call sites,
    returns "No events for today."; neither ever returns the empty string
    or the header alone. *)
Theorem no_events_sentinel :
  formatEvents [] = Returned "No events for this date."
  /\ renderTodaysEvents [] = Returned "No events for today."
  /\ (forall now p, exists todaysEvents,
        getTodaysEvents now p = (Returned todaysEvents, p)
        /\ getTodaysEventsForTemplater now p
           = (renderTodaysEvents todaysEvents, p)
        /\ templaterCommand now p = (renderTodaysEvents todaysEvents, p))
  /\ (forall evs, formatEvents evs <> Returned ""
                  /\ formatEvents evs <> Returned tableHeader)
  /\ (forall evs, renderTodaysEvents evs <> Returned ""
                  /\ renderTodaysEvents evs <> Returned tableHeader).
Proof.
  split; [reflexivity |]. split; [reflexivity |].
  split; [exact templater_renders |].
  split; [exact formatEvents_not_bare | exact renderTodaysEvents_not_bare].
Qed.

Lemma localClock_isClock24 (tv : Z) : isClock24 (localClock (DateOf tv)).
Proof.
  exists (Calendar.HourFromTime (LocalTime tv)),
         (Calendar.MinFromTime (LocalTime tv)).
  split; [apply CalendarFacts.HourFromTime_range |].
  split; [apply CalendarFacts.MinFromTime_range | reflexivity].
Qed.

Lemma validStart_isClock24 (e : Event) :
  validStart e -> isClock24 (localClock (start e)).
Proof.
  unfold validStart. destruct (start e) as [| tv]; [discriminate |].
  intros _. apply localClock_isClock24.
Qed.

(** C6. Of events that start at valid dates, at least one, the table
    renderer returns the header line "| Time | Event |", the separator
    line, and then one line "| HH:mm | summary |" for each event, in the
    order of the sequence, HH:mm being the local clock of the start of the
    event on 24 hours. *)
Theorem formatEvents_table (e : Event) (evs : list Event) :
  Forall validStart (e :: evs) ->
  formatEvents (e :: evs)
  = Returned ("| Time | Event |" ++ nl ++ "|------|-------|" ++ nl
              ++ tableRows (e :: evs))
  /\ Forall (fun ev =>
               tableRow ev
               = "| " ++ localClock (start ev) ++ " | " ++ summary ev
                 ++ " |" ++ nl
               /\ isClock24 (localClock (start ev))) (e :: evs).
Proof.
  intros Hvalid. split.
  - unfold formatEvents. cbn [List.length Nat.eqb].
    rewrite (fold_appendRow_valid _ Hvalid). reflexivity.
  - apply Forall_forall. intros ev Hin. split; [reflexivity |].
    apply validStart_isClock24.
    rewrite Forall_forall in Hvalid. now apply Hvalid.
Qed.

(** An event whose start is an invalid date makes the renderer throw. *)
Lemma formatEvents_invalid_start (e : Event) :
  start e = InvalidDate ->
  formatEvents [e] = Thrown (RangeError "Invalid time value").
Proof. intros H. unfold formatEvents, appendRow. simpl. now rewrite H. Qed.

(** C10. The renderer of [getTodaysEventsForTemplater] and [formatEvents]
    return the same text of the same events, when there is at least one;
    of no events the first returns "No events for today." and the second
    "No events for this date.".  The command registered in [onload] does
    what [getTodaysEventsForTemplater] does. *)
Theorem renderers_agree :
  (forall e evs, renderTodaysEvents (e :: evs) = formatEvents (e :: evs))
  /\ renderTodaysEvents [] = Returned "No events for today."
  /\ formatEvents [] = Returned "No events for this date."
  /\ (forall now p, exists todaysEvents,
        getTodaysEvents now p = (Returned todaysEvents, p)
        /\ getTodaysEventsForTemplater now p
           = (renderTodaysEvents todaysEvents, p))
  /\ (forall now p,
        templaterCommand now p = getTodaysEventsForTemplater now p).
Proof.
  split; [reflexivity |]. split; [reflexivity |]. split; [reflexivity |].
  split.
  - intros now p. destruct (templater_renders now p) as (t & H1 & H2 & _).
    eauto.
  - intros now p. destruct (templater_renders now p) as (t & _ & H2 & H3).
    now rewrite H2, H3.
Qed.

(** *** The load *)

Lemma with_events_same (p : Plugin) : with_events p (events p) = p.
Proof. now destruct p. Qed.

Lemma with_events_twice (p : Plugin) (a b : list Event) :
  with_events (with_events p a) b = with_events p b.
Proof. reflexivity. Qed.

(** One turn of the loop never throws, and appends what the document
    contributes, all at once. *)
Lemma processFile_contribution (file : TFile) (p : Plugin) :
  processFile file p
  = (Returned tt, with_events p (events p ++ contribution file)).
Proof.
  assert (Hsame : (Returned tt, p)
                  = (Returned tt, with_events p (events p ++ [])))
    by now rewrite app_nil_r, with_events_same.
  unfold processFile, fileBody, contribution, fileEvents, componentsOf.
  unfold tryCatch, bind, lift, ret, throw.
  destruct (read file) as [icsData | err]; cbn [obind]; [| exact Hsame].
  destruct parse_is_function; cbn [obind]; [| exact Hsame].
  destruct (parse icsData) as [jcalData | err]; cbn [obind]; [| exact Hsame].
  destruct (newComponent jcalData) as [comp | err]; cbn [obind];
    [| exact Hsame].
  destruct (array_map toEvent (getAllSubcomponents comp "vevent"))
    as [mapped | err]; [reflexivity | exact Hsame].
Qed.

Lemma forEachFile_flat_map (files : list TFile) :
  forall p, forEachFile files p
            = (Returned tt,
               with_events p (events p ++ flat_map contribution files)).
Proof.
  induction files as [| file rest IH]; intros p; cbn [forEachFile flat_map].
  - unfold ret. now rewrite app_nil_r, with_events_same.
  - unfold bind. rewrite processFile_contribution, IH.
    cbn [with_events events]. now rewrite app_assoc.
Qed.

Lemma loadEvents_configured (p : Plugin) :
  icsDirectory (settings p) <> "" ->
  let evs := flat_map contribution (icsFilesOf (icsDirectory (settings p))) in
  loadEvents p
  = (Returned tt,
     {| settings := settings p; events := evs;
        notices := notices p ++ [loadedText evs] |}).
Proof.
  intros Hdir evs. apply String.eqb_neq in Hdir.
  unfold loadEvents, bind, this_settings, tryCatch.
  rewrite Hdir. unfold set_events.
  rewrite forEachFile_flat_map. reflexivity.
Qed.

Lemma loadEvents_unconfigured (p : Plugin) :
  icsDirectory (settings p) = "" ->
  loadEvents p
  = (Returned tt,
     {| settings := settings p; events := events p;
        notices := notices p ++ [notSetText] |}).
Proof.
  intros Hdir. unfold loadEvents, bind, this_settings.
  now rewrite Hdir.
Qed.

(** A load never throws. *)
Lemma loadEvents_returns (p : Plugin) : result (loadEvents p) = Returned tt.
Proof.
  destruct (string_dec (icsDirectory (settings p)) "") as [Hdir | Hdir].
  - now rewrite loadEvents_unconfigured.
  - now rewrite loadEvents_configured.
Qed.

Lemma array_map_Forall2 {A B : Type} (f : A -> Outcome B) (xs : list A) :
  forall ys, array_map f xs = Returned ys ->
             Forall2 (fun x y => f x = Returned y) xs ys.
Proof.
  induction xs as [| x xs IH]; intros ys H; cbn [array_map] in H.
  - injection H as <-. constructor.
  - destruct (f x) as [y |] eqn:Ex; [| discriminate].
    cbn [obind] in H.
    destruct (array_map f xs) as [ys' |]; [| discriminate].
    injection H as <-. constructor; auto.
Qed.

(** The events of a document follow its event components, one for one. *)
Lemma contribution_per_component (file : TFile) (evs : list Event) :
  fileEvents file = Returned evs ->
  contribution file = evs
  /\ exists vevents,
       componentsOf file = Returned vevents
       /\ Forall2 (fun vevent e => toEvent vevent = Returned e) vevents evs.
Proof.
  intros H. split; [unfold contribution; now rewrite H |].
  unfold fileEvents in H.
  destruct (componentsOf file) as [vevents |]; [| discriminate].
  exists vevents. split; [reflexivity |]. now apply array_map_Forall2.
Qed.

(** C2. A load, once the directory is set, leaves as the collection the
    events of the documents, document after document in the order of the
    documents, and for each document event component after event component;
    what the collection held before the load plays no part. *)
Theorem loadEvents_replaces (p : Plugin) :
  icsDirectory (settings p) <> "" ->
  let icsFiles := icsFilesOf (icsDirectory (settings p)) in
  events (after (loadEvents p)) = List.concat (map contribution icsFiles)
  /\ (forall previous,
        events (after (loadEvents (with_events p previous)))
        = List.concat (map contribution icsFiles))
  /\ (forall file evs,
        fileEvents file = Returned evs ->
        contribution file = evs
        /\ exists vevents,
             componentsOf file = Returned vevents
             /\ Forall2 (fun vevent e => toEvent vevent = Returned e)
                        vevents evs).
Proof.
  intros Hdir icsFiles. split; [| split].
  - rewrite (loadEvents_configured p Hdir). apply flat_map_concat_map.
  - intros previous.
    rewrite (loadEvents_configured (with_events p previous) Hdir).
    apply flat_map_concat_map.
  - exact contribution_per_component.
Qed.

(** *** Malformed event components *)

Lemma toEvent_wellFormed (c : Component) :
  wellFormed c = true -> toEvent c = Returned (eventOf c).
Proof.
  unfold wellFormed, toEvent, eventOf.
  destruct (Event_startDate c), (Event_endDate c);
    try discriminate; reflexivity.
Qed.

Lemma toEvent_malformed (c : Component) :
  wellFormed c = false -> exists err, toEvent c = Thrown err.
Proof.
  unfold wellFormed, toEvent.
  destruct (Event_startDate c), (Event_endDate c);
    try discriminate; intros _; simpl; eauto.
Qed.

Lemma array_map_toEvent (vevents : list Component) :
  if forallb wellFormed vevents
  then array_map toEvent vevents = Returned (map eventOf vevents)
  else exists err, array_map toEvent vevents = Thrown err.
Proof.
  induction vevents as [| c cs IH]; cbn [forallb array_map map];
    [reflexivity |].
  destruct (wellFormed c) eqn:Ec; cbn [andb].
  - rewrite (toEvent_wellFormed c Ec). cbn [obind].
    destruct (forallb wellFormed cs).
    + now rewrite IH.
    + destruct IH as [err ->]. now exists err.
  - destruct (toEvent_malformed c Ec) as [err ->]. now exists err.
Qed.

Lemma converts_wellFormed (c : Component) : converts c = wellFormed c.
Proof.
  unfold converts. destruct (wellFormed c) eqn:E.
  - now rewrite (toEvent_wellFormed c E).
  - destruct (toEvent_malformed c E) as [err ->]. reflexivity.
Qed.

Lemma forallb_converts (vevents : list Component) :
  forallb converts vevents = forallb wellFormed vevents.
Proof.
  induction vevents as [| c cs IH]; cbn [forallb]; [reflexivity |].
  now rewrite converts_wellFormed, IH.
Qed.

Lemma contribution_allOrNothing (file : TFile) :
  contribution file = allOrNothing file.
Proof.
  unfold contribution, allOrNothing, fileEvents.
  destruct (componentsOf file) as [vevents | err]; [| reflexivity].
  cbn [obind]. pose proof (array_map_toEvent vevents) as H.
  rewrite forallb_converts.
  destruct (forallb wellFormed vevents).
  - now rewrite H.
  - destruct H as [err ->]. reflexivity.
Qed.

Lemma converts_eventOf (c : Component) :
  converts c = true -> toEvent c = Returned (eventOf c).
Proof. rewrite converts_wellFormed. apply toEvent_wellFormed. Qed.

(** An event component whose start date is null is not converted: the
    call of [toJSDate] on it throws. *)
Lemma no_start_no_event (c : Component) :
  Event_startDate c = None -> converts c = false.
Proof.
  intros H. rewrite converts_wellFormed. unfold wellFormed. now rewrite H.
Qed.

(** C3, as the code has it.  A load leaves, for each document, one event
    for each of its event components when the conversion of every one of
    them returns, and no event at all when the conversion of one of them
    throws, as it does for an event component whose start date is null:
    the exception leaves the document, not the component, out. *)
Theorem loadEvents_all_or_nothing (p : Plugin) :
  icsDirectory (settings p) <> "" ->
  events (after (loadEvents p))
  = flat_map allOrNothing (icsFilesOf (icsDirectory (settings p)))
  /\ (forall c, converts c = true -> toEvent c = Returned (eventOf c))
  /\ (forall c, Event_startDate c = None -> converts c = false).
Proof.
  intros Hdir. split; [| split].
  - rewrite (loadEvents_configured p Hdir). cbn [after snd events].
    apply flat_map_ext. exact contribution_allOrNothing.
  - exact converts_eventOf.
  - exact no_start_no_event.
Qed.

(** *** Documents that fail *)

Lemma contribution_of_failed (file : TFile) :
  succeeds file = false -> contribution file = [].
Proof.
  unfold succeeds, contribution.
  now destruct (fileEvents file).
Qed.

Lemma fileEvents_of_succeeded (file : TFile) :
  succeeds file = true -> fileEvents file = Returned (contribution file).
Proof.
  unfold succeeds, contribution.
  now destruct (fileEvents file).
Qed.

Lemma flat_map_succeeded (files : list TFile) :
  flat_map contribution files
  = flat_map contribution (filter succeeds files).
Proof.
  induction files as [| file rest IH]; cbn [flat_map filter]; [reflexivity |].
  destruct (succeeds file) eqn:E; cbn [flat_map].
  - now rewrite IH.
  - now rewrite (contribution_of_failed file E), IH.
Qed.

(** *** The load as the event loop runs it *)

Lemma enterLoop_last (p : Plugin) :
  enterLoop [] p
  = (Settled,
     {| settings := settings p; events := events p;
        notices := notices p ++ [loadedText (events p)] |}).
Proof. reflexivity. Qed.

Lemma resume_contribution (file : TFile) (rest : list TFile) (p : Plugin) :
  resume file rest p
  = enterLoop rest (with_events p (events p ++ contribution file)).
Proof. unfold resume. now rewrite processFile_contribution. Qed.

Lemma inProgress_begin (p0 : Plugin) :
  icsDirectory (settings p0) <> "" -> inProgress p0 (begin p0).
Proof.
  intros Hdir. exists []. unfold begin.
  pose proof (loadEvents_configured p0 Hdir) as Hload. cbv zeta in Hload.
  apply String.eqb_neq in Hdir. rewrite Hdir.
  destruct (icsFilesOf (icsDirectory (settings p0))) as [| file rest] eqn:E.
  - split; [reflexivity |]. rewrite Hload. reflexivity.
  - split; reflexivity.
Qed.

Lemma inProgress_step (p0 : Plugin) (c c' : Config) :
  icsDirectory (settings p0) <> "" ->
  inProgress p0 c -> step c c' -> inProgress p0 c'.
Proof.
  intros Hdir (done & Hfiles & Hp) Hstep.
  destruct Hstep as [file rest p]. cbn [fst snd pending] in *. subst p.
  rewrite resume_contribution. cbn [events with_events].
  exists (done ++ [file])%list.
  assert (Hflat : (flat_map contribution done ++ contribution file)%list
                  = flat_map contribution (done ++ [file]))
    by (rewrite flat_map_app; cbn [flat_map]; now rewrite app_nil_r).
  rewrite Hflat.
  destruct rest as [| next rest]; cbn [enterLoop fst snd pending].
  - rewrite app_nil_r in *. split; [exact Hfiles |].
    rewrite (loadEvents_configured p0 Hdir), <- Hfiles. reflexivity.
  - split; [now rewrite <- app_assoc | reflexivity].
Qed.

Lemma reached_inProgress (p0 : Plugin) (c : Config) :
  icsDirectory (settings p0) <> "" -> reached p0 c -> inProgress p0 c.
Proof.
  intros Hdir Hreached.
  induction Hreached as [| c c' _ IH Hstep].
  - now apply inProgress_begin.
  - now apply (inProgress_step p0 c c').
Qed.

Lemma inProgress_observed (p0 : Plugin) (c : Config) :
  icsDirectory (settings p0) <> "" ->
  inProgress p0 c ->
  exists done,
    (done ++ pending c)%list = icsFilesOf (icsDirectory (settings p0))
    /\ observed c = flat_map contribution done.
Proof.
  intros Hdir (done & Hfiles & Hp). exists done. split; [exact Hfiles |].
  unfold observed. destruct c as [[file rest |] p]; cbn [fst snd pending] in *.
  - now rewrite Hp.
  - rewrite Hp, (loadEvents_configured p0 Hdir), <- Hfiles.
    now rewrite app_nil_r.
Qed.

(** A load that has begun settles, after one run for each pending file. *)
Lemma pending_settles (p0 : Plugin) (rest : list TFile) :
  forall file p,
    reached p0 (AwaitingRead file rest, p) ->
    exists p', reached p0 (Settled, p').
Proof.
  induction rest as [| next rest IH]; intros file p Hreached.
  - eexists. eapply reached_step; [exact Hreached |].
    pose proof (step_resume file [] p) as Hstep.
    rewrite resume_contribution in Hstep. exact Hstep.
  - apply (IH next (with_events p (events p ++ contribution file))).
    eapply reached_step; [exact Hreached |].
    pose proof (step_resume file (next :: rest) p) as Hstep.
    rewrite resume_contribution in Hstep. exact Hstep.
Qed.

Lemma load_settles (p0 : Plugin) :
  icsDirectory (settings p0) <> "" ->
  reached p0 (Settled, after (loadEvents p0)).
Proof.
  intros Hdir.
  assert (H : exists p', reached p0 (Settled, p')).
  { pose proof (reached_begin p0) as Hb.
    destruct (begin p0) as [[file rest |] p] eqn:E.
    - exact (pending_settles p0 rest file p Hb).
    - now exists p. }
  destruct H as [p' Hp'].
  destruct (reached_inProgress p0 _ Hdir Hp') as (done & _ & Heq).
  cbn [fst snd] in Heq. now subst p'.
Qed.

(** C4. With the directory set, a load returns without throwing, whatever
    documents fail (unreadable, not parsed, or with an event component that
    cannot be converted); it leaves as the collection the events of the
    documents that succeeded, in their order, and reports their number; and
    the run of the load by the event loop reaches its end, with that
    result. *)
Theorem loadEvents_isolates_failures (p : Plugin) :
  icsDirectory (settings p) <> "" ->
  let icsFiles := icsFilesOf (icsDirectory (settings p)) in
  let succeeded := filter succeeds icsFiles in
  result (loadEvents p) = Returned tt
  /\ events (after (loadEvents p)) = flat_map contribution succeeded
  /\ Forall (fun file => fileEvents file = Returned (contribution file))
            succeeded
  /\ notices (after (loadEvents p))
     = (notices p ++ [loadedText (flat_map contribution succeeded)])%list
  /\ reached p (Settled, after (loadEvents p)).
Proof.
  intros Hdir icsFiles succeeded.
  split; [apply loadEvents_returns |].
  unfold succeeded, icsFiles. rewrite <- flat_map_succeeded.
  rewrite (loadEvents_configured p Hdir) at 1 2. cbn [after snd events notices].
  split; [reflexivity |]. split; [| split; [reflexivity |]].
  - apply Forall_forall. intros file Hin.
    apply filter_In in Hin as [_ Hs]. now apply fileEvents_of_succeeded.
  - now apply load_settles.
Qed.

(** C7, as the code has it.  With the directory set, in every configuration
    of a load the collection holds the events of the documents read so
    far, those before the pending ones: it is emptied when the load begins,
    and extended by one whole document at each run; at the end it is the
    collection that [loadEvents] leaves. *)
Theorem load_in_progress (p0 : Plugin) (c : Config) :
  icsDirectory (settings p0) <> "" ->
  reached p0 c ->
  (exists done,
     (done ++ pending c)%list = icsFilesOf (icsDirectory (settings p0))
     /\ observed c = flat_map contribution done)
  /\ (fst c = Settled -> snd c = after (loadEvents p0)).
Proof.
  intros Hdir Hreached.
  pose proof (reached_inProgress p0 c Hdir Hreached) as Hinv.
  split; [now apply inProgress_observed |].
  destruct Hinv as (done & _ & Hp). intros Hs. now rewrite Hs in Hp.
Qed.

(** *** No directory *)

Lemma reached_unconfigured (p : Plugin) (c : Config) :
  icsDirectory (settings p) = "" ->
  reached p c -> c = (Settled, after (loadEvents p)).
Proof.
  intros Hdir Hreached.
  assert (Hbegin : begin p = (Settled, after (loadEvents p))).
  { unfold begin. rewrite (loadEvents_unconfigured p Hdir), Hdir.
    reflexivity. }
  induction Hreached as [| c c' _ IH Hstep]; [exact Hbegin |].
  rewrite IH in Hstep. inversion Hstep.
Qed.

(** C9. With the empty string as directory, [loadEvents] returns at once:
    it shows the notice that the directory is not set, and leaves the
    collection as it was, neither emptied nor replaced; the load has no
    other configuration than this end. *)
Theorem loadEvents_without_directory (p : Plugin) :
  icsDirectory (settings p) = "" ->
  loadEvents p
  = (Returned tt,
     {| settings := settings p; events := events p;
        notices := notices p ++ [notSetText] |})
  /\ events (after (loadEvents p)) = events p
  /\ (forall c, reached p c -> c = (Settled, after (loadEvents p))).
Proof.
  intros Hdir. split; [now apply loadEvents_unconfigured |].
  split; [now rewrite (loadEvents_unconfigured p Hdir) |].
  intros c. now apply reached_unconfigured.
Qed.

End PluginFacts.

(** ** The properties on the example data *)
Module DemoFacts.
Import Demo.

#[local] Existing Instance tz.

(** A calendar with one event, Standup, from 09:00 to 09:30 on 15 January
    2024: it is loaded, found on that day, and rendered. *)
Example standup_scenario :
  let loaded :=
    after (loadEvents (ical := lib) (vault := vaultOf [workFile])
             (configured [])) in
  events loaded = [standup]
  /\ result (getEventsForDate (at_ 2024 1 15 0 0) loaded)
     = Returned [standup]
  /\ formatEvents [standup]
     = Returned ("| Time | Event |" ++ nl ++ "|------|-------|" ++ nl
                 ++ "| 09:00 | Standup |" ++ nl).
Proof. vm_compute. repeat split. Qed.

Lemma configured_directory (evs : list Event) :
  icsDirectory (settings (configured evs)) <> "".
Proof. discriminate. Qed.

Lemma valid_starts : Forall validStart [retro; review; standup].
Proof. repeat constructor. Qed.

Lemma getEventsForDate_same_day_witness :
  (Forall validStart (events (configured [retro; review; standup]))
   \/ isValid (at_ 2024 1 15 12 0) = true)
  /\ getEventsForDate (at_ 2024 1 15 12 0)
       (configured [retro; review; standup])
     = (Returned [retro; standup], configured [retro; review; standup]).
Proof.
  split; [left; exact valid_starts |].
  destruct (getEventsForDate_same_day (at_ 2024 1 15 12 0)
              (configured [retro; review; standup])
              (or_introl valid_starts))
    as [E _].
  rewrite E. vm_compute. reflexivity.
Defined.

Lemma formatEvents_table_witness :
  Forall validStart [retro; review; standup]
  /\ formatEvents [retro; review; standup]
     = Returned ("| Time | Event |" ++ nl ++ "|------|-------|" ++ nl
                 ++ "| 16:00 | Retro |" ++ nl
                 ++ "| 10:00 | Review |" ++ nl
                 ++ "| 09:00 | Standup |" ++ nl).
Proof.
  split; [exact valid_starts |].
  destruct (formatEvents_table retro [review; standup] valid_starts)
    as [E _].
  rewrite E. vm_compute. reflexivity.
Defined.

Lemma loadEvents_replaces_witness :
  icsDirectory (settings (configured [stale])) <> ""
  /\ events (after (loadEvents (ical := lib) (vault := mixedVault)
                      (configured [stale])))
     = [standup; retro; review].
Proof.
  split; [apply configured_directory |].
  destruct (loadEvents_replaces (ical := lib) (vault := mixedVault)
              (configured [stale]) (configured_directory [stale]))
    as [E _].
  rewrite E. vm_compute. reflexivity.
Defined.

Lemma loadEvents_isolates_failures_witness :
  icsDirectory (settings (configured [stale])) <> ""
  /\ result (loadEvents (ical := lib) (vault := mixedVault)
               (configured [stale])) = Returned tt
  /\ filter (succeeds (ical := lib) (vault := mixedVault))
            (icsFilesOf (vault := mixedVault) "calendars")
     = [workFile; teamFile]
  /\ notices (after (loadEvents (ical := lib) (vault := mixedVault)
                       (configured [stale])))
     = ["Loaded 3 events from ICS files."].
Proof.
  split; [apply configured_directory |].
  destruct (loadEvents_isolates_failures (ical := lib) (vault := mixedVault)
              (configured [stale]) (configured_directory [stale]))
    as (E1 & _ & _ & E4 & _).
  split; [exact E1 |]. split; [vm_compute; reflexivity |].
  rewrite E4. vm_compute. reflexivity.
Defined.

(** The document with an event component without start gives no event,
    though its first event component is well formed. *)
Example mixed_document :
  events (after (loadEvents (ical := lib) (vault := oneMixedVault)
                   (configured [])))
  = []
  /\ (exists vevents,
        componentsOf (ical := lib) (vault := oneMixedVault) mixedFile
        = Returned vevents
        /\ map (eventOf (ical := lib))
               (filter (wellFormed (ical := lib)) vevents)
           = [standup]).
Proof.
  split; [vm_compute; reflexivity |].
  eexists. split; [reflexivity | vm_compute; reflexivity].
Qed.

Lemma malformed_component_drops_document :
  ~ skipsMalformedComponents (ical := lib) (vault := oneMixedVault)
      (configured []).
Proof.
  intros H.
  specialize (H mixedFile _ eq_refl eq_refl).
  vm_compute in H. discriminate H.
Defined.

Lemma loadEvents_all_or_nothing_witness :
  icsDirectory (settings (configured [stale])) <> ""
  /\ events (after (loadEvents (ical := lib) (vault := mixedVault)
                      (configured [stale])))
     = flat_map (allOrNothing (ical := lib) (vault := mixedVault))
                [workFile; brokenFile; goneFile; mixedFile; teamFile]
  /\ allOrNothing (ical := lib) (vault := mixedVault) mixedFile = [].
Proof.
  split; [apply configured_directory |].
  split; [| vm_compute; reflexivity].
  rewrite (proj1 (loadEvents_all_or_nothing (ical := lib)
                    (vault := mixedVault) (configured [stale])
                    (configured_directory [stale]))).
  vm_compute. reflexivity.
Defined.

(** A load of two documents over a collection that holds a stale event:
    after the first document is read, a query sees the event of that
    document alone. *)
Lemma halfway_reached :
  reached (ical := lib) (vault := twoVault) (configured [stale]) halfway.
Proof.
  eapply reached_step; [apply reached_begin |].
  change (begin (vault := twoVault) (configured [stale]))
    with (AwaitingRead workFile [teamFile],
          with_events (configured [stale]) []).
  apply step_resume.
Qed.

Example halfway_observed :
  observed halfway = [standup]
  /\ events (configured [stale]) = [stale]
  /\ events (after (loadEvents (ical := lib) (vault := twoVault)
                      (configured [stale])))
     = [standup; retro; review].
Proof. vm_compute. repeat split. Qed.

Lemma load_not_atomic :
  ~ atomicReplacement (ical := lib) (vault := twoVault) (configured [stale]).
Proof.
  intros H. specialize (H halfway halfway_reached).
  vm_compute in H. destruct H as [H | H]; discriminate H.
Defined.

Lemma load_in_progress_witness :
  icsDirectory (settings (configured [stale])) <> ""
  /\ reached (ical := lib) (vault := twoVault) (configured [stale]) halfway
  /\ exists done,
       (done ++ pending halfway)%list
       = icsFilesOf (vault := twoVault) "calendars"
       /\ observed halfway
          = flat_map (contribution (ical := lib) (vault := twoVault)) done.
Proof.
  split; [apply configured_directory |].
  split; [exact halfway_reached |].
  exact (proj1 (load_in_progress (ical := lib) (vault := twoVault)
                  (configured [stale]) halfway
                  (configured_directory [stale]) halfway_reached)).
Defined.

Lemma loadEvents_without_directory_witness :
  icsDirectory (settings (unconfigured [stale])) = ""
  /\ loadEvents (ical := lib) (vault := mixedVault) (unconfigured [stale])
     = (Returned tt,
        {| settings := DEFAULT_SETTINGS; events := [stale];
           notices := [notSetText] |}).
Proof.
  split; [reflexivity |].
  exact (proj1 (loadEvents_without_directory (ical := lib)
                  (vault := mixedVault) (unconfigured [stale]) eq_refl)).
Defined.

End DemoFacts.

(** ** The date written in a note *)
Module NoteDateFacts.
Import NoteDate.

Lemma matchDate_unfold (s : string) :
  matchDate s
  = match matchDateAt s with
    | Some d => Some d
    | None => match s with
              | EmptyString => None
              | String _ rest => matchDate rest
              end
    end.
Proof. destruct s; reflexivity. Qed.

Lemma dropPrefix_app (pre rest : string) :
  dropPrefix pre (pre ++ rest) = Some rest.
Proof.
  induction pre as [| c pre IH]; cbn [String.append dropPrefix];
    [now destruct rest |].
  now rewrite Ascii.eqb_refl.
Qed.

Lemma dropPrefix_Some (pre s rest : string) :
  dropPrefix pre s = Some rest -> s = pre ++ rest.
Proof.
  revert s. induction pre as [| c pre IH]; intros s H.
  - destruct s; injection H as <-; reflexivity.
  - destruct s as [| b s]; cbn [dropPrefix] in H; [discriminate |].
    destruct (Ascii.eqb_spec c b) as [-> | _]; [| discriminate].
    cbn [String.append]. f_equal. now apply IH.
Qed.

Lemma digit_not_space (c : ascii) : isDigit c = true -> isSpace c = false.
Proof.
  destruct c as [[|] [|] [|] [|] [|] [|] [|] [|]];
    vm_compute; congruence.
Qed.

Lemma allSpaces_empty : allSpaces "".
Proof. intros c []. Qed.

Lemma allSpaces_cons (c : ascii) (ws : string) :
  isSpace c = true -> allSpaces ws -> allSpaces (String c ws).
Proof.
  intros Hc Hws x [<- | Hx]; [exact Hc | now apply Hws].
Qed.

Lemma allSpaces_inv (c : ascii) (ws : string) :
  allSpaces (String c ws) -> isSpace c = true /\ allSpaces ws.
Proof.
  intros H. split.
  - apply H. now left.
  - intros x Hx. apply H. now right.
Qed.

Lemma skipSpaces_split (s : string) :
  exists ws, s = ws ++ skipSpaces s /\ allSpaces ws.
Proof.
  induction s as [| c s (ws & Hs & Hws)]; cbn [skipSpaces].
  - exists "". split; [reflexivity | apply allSpaces_empty].
  - destruct (isSpace c) eqn:Hc.
    + exists (String c ws). split.
      * cbn [String.append]. now rewrite <- Hs.
      * now apply allSpaces_cons.
    + exists "". split; [reflexivity | apply allSpaces_empty].
Qed.

Lemma skipSpaces_app (ws rest : string) :
  allSpaces ws -> skipSpaces (ws ++ rest) = skipSpaces rest.
Proof.
  induction ws as [| c ws IH]; intros H; cbn [String.append skipSpaces];
    [reflexivity |].
  apply allSpaces_inv in H as [Hc Hws]. rewrite Hc. now apply IH.
Qed.

(** A text of the form of a date has ten characters, digits but for the
    two hyphens. *)
Lemma isDateText_inv (d : string) :
  isDateText d ->
  exists y1 y2 y3 y4 m1 m2 d1 d2,
    d = String y1 (String y2 (String y3 (String y4 (String "-"
          (String m1 (String m2 (String "-" (String d1
             (String d2 EmptyString)))))))))
    /\ isDigit y1 = true /\ isDigit y2 = true /\ isDigit y3 = true
    /\ isDigit y4 = true /\ isDigit m1 = true /\ isDigit m2 = true
    /\ isDigit d1 = true /\ isDigit d2 = true.
Proof.
  unfold isDateText, takeDate. intros H.
  destruct d as [| y1 [| y2 [| y3 [| y4 [| h1 [| m1 [| m2 [| h2 [| d1
    [| d2 tail]]]]]]]]]]; try discriminate.
  destruct (isDigit y1) eqn:E1; cbn [andb] in H; [| discriminate].
  destruct (isDigit y2) eqn:E2; cbn [andb] in H; [| discriminate].
  destruct (isDigit y3) eqn:E3; cbn [andb] in H; [| discriminate].
  destruct (isDigit y4) eqn:E4; cbn [andb] in H; [| discriminate].
  destruct (Ascii.eqb_spec h1 "-") as [-> | _]; cbn [andb] in H;
    [| discriminate].
  destruct (isDigit m1) eqn:E5; cbn [andb] in H; [| discriminate].
  destruct (isDigit m2) eqn:E6; cbn [andb] in H; [| discriminate].
  destruct (Ascii.eqb_spec h2 "-") as [-> | _]; cbn [andb] in H;
    [| discriminate].
  destruct (isDigit d1) eqn:E7; cbn [andb] in H; [| discriminate].
  destruct (isDigit d2) eqn:E8; cbn [andb] in H; [| discriminate].
  injection H as <-.
  exists y1, y2, y3, y4, m1, m2, d1, d2. repeat split; assumption.
Qed.

Lemma takeDate_app (d post : string) :
  isDateText d -> takeDate (d ++ post) = Some d.
Proof.
  intros H.
  destruct (isDateText_inv d H)
    as (y1 & y2 & y3 & y4 & m1 & m2 & d1 & d2 & -> & E1 & E2 & E3 & E4
        & E5 & E6 & E7 & E8).
  cbn [String.append takeDate].
  now rewrite E1, E2, E3, E4, E5, E6, E7, E8.
Qed.

Lemma takeDate_Some (s d : string) :
  takeDate s = Some d -> exists post, s = d ++ post /\ isDateText d.
Proof.
  unfold takeDate. intros H.
  destruct s as [| y1 [| y2 [| y3 [| y4 [| h1 [| m1 [| m2 [| h2 [| d1
    [| d2 tail]]]]]]]]]]; try discriminate.
  match type of H with
  | (if ?b then _ else _) = _ => destruct b eqn:Hb; [| discriminate]
  end.
  injection H as <-. exists tail. split; [reflexivity |].
  unfold isDateText, takeDate. now rewrite Hb.
Qed.

Lemma isDateText_skip (d post : string) :
  isDateText d -> skipSpaces (d ++ post) = d ++ post.
Proof.
  intros H.
  destruct (isDateText_inv d H)
    as (y1 & y2 & y3 & y4 & m1 & m2 & d1 & d2 & -> & E1 & _).
  cbn [String.append skipSpaces]. now rewrite (digit_not_space y1 E1).
Qed.

(** The matcher at one place finds what the pattern says: the text date:,
    then spaces, then a text of the form of a date. *)
Lemma matchDateAt_iff (s d : string) :
  matchDateAt s = Some d <-> MatchAt s d.
Proof.
  unfold matchDateAt, MatchAt. split.
  - destruct (dropPrefix "date:" s) as [rest |] eqn:Hpre; [| discriminate].
    intros Htake. apply dropPrefix_Some in Hpre.
    destruct (skipSpaces_split rest) as (ws & Hrest & Hws).
    apply takeDate_Some in Htake as (post & Hpost & Hd).
    exists ws, post. split; [| split; assumption].
    now rewrite Hpre, Hrest, Hpost at 1.
  - intros (ws & post & -> & Hws & Hd).
    rewrite dropPrefix_app, (skipSpaces_app ws _ Hws).
    rewrite (isDateText_skip d post Hd). now apply takeDate_app.
Qed.

Lemma matchDate_here (s d : string) :
  matchDateAt s = Some d -> matchDate s = Some d.
Proof. intros H. now rewrite matchDate_unfold, H. Qed.

Lemma matchDate_later (c : ascii) (s : string) :
  matchDateAt (String c s) = None -> matchDate (String c s) = matchDate s.
Proof. intros H. now rewrite matchDate_unfold, H. Qed.

(** The search finds the date of the pattern where it occurs first in the
    text, wherever that is: [d] is found exactly when the text is some
    [pre] followed by a match of the pattern with [d], and no match
    starts before the end of [pre]. *)
Theorem matchDate_first (s d : string) :
  matchDate s = Some d
  <-> exists pre rest,
        s = pre ++ rest /\ MatchAt rest d
        /\ forall pre' rest' d',
             s = pre' ++ rest' -> MatchAt rest' d' ->
             (String.length pre <= String.length pre')%nat.
Proof.
  split.
  - revert d. induction s as [| c s IH]; intros d H.
    + rewrite matchDate_unfold in H.
      destruct (matchDateAt "") eqn:E; [| discriminate].
      injection H as ->. exists "", "". split; [reflexivity |].
      split; [now apply matchDateAt_iff | intros; apply Nat.le_0_l].
    + destruct (matchDateAt (String c s)) as [d0 |] eqn:E.
      * rewrite (matchDate_here _ _ E) in H. injection H as ->.
        exists "", (String c s). split; [reflexivity |].
        split; [now apply matchDateAt_iff | intros; apply Nat.le_0_l].
      * rewrite (matchDate_later _ _ E) in H.
        destruct (IH d H) as (pre & rest & -> & Hm & Hmin).
        exists (String c pre), rest. split; [reflexivity |].
        split; [exact Hm |].
        intros pre' rest' d' Hs Hm'.
        destruct pre' as [| c' pre'].
        -- cbn [String.append] in Hs. subst rest'.
           apply matchDateAt_iff in Hm'. congruence.
        -- cbn [String.append] in Hs. injection Hs as <- Hs.
           cbn [String.length]. apply le_n_S. now apply (Hmin pre' rest' d').
  - intros (pre & rest & -> & Hm & Hmin).
    induction pre as [| c pre IH].
    + apply matchDate_here. now apply matchDateAt_iff.
    + cbn [String.append].
      destruct (matchDateAt (String c (pre ++ rest))) as [d0 |] eqn:E.
      * apply matchDateAt_iff in E.
        specialize (Hmin "" (String c (pre ++ rest)) d0 eq_refl E).
        inversion Hmin.
      * rewrite (matchDate_later _ _ E). apply IH.
        intros pre' rest' d' Hs Hm'.
        apply le_S_n.
        apply (Hmin (String c pre') rest' d'); [| exact Hm'].
        cbn [String.append]. now rewrite Hs.
Qed.

(** What is found has the form of a date, and the text has no date when
    the text date: is nowhere in it followed by one. *)
Corollary matchDate_None (s : string) :
  matchDate s = None
  <-> forall pre rest d, s = pre ++ rest -> ~ MatchAt rest d.
Proof.
  split.
  - intros Hnone pre. revert s Hnone.
    induction pre as [| c pre IH]; intros s Hnone rest d -> Hm.
    + apply matchDateAt_iff in Hm. apply matchDate_here in Hm.
      cbn [String.append] in Hnone. congruence.
    + cbn [String.append] in Hnone.
      rewrite matchDate_unfold in Hnone.
      destruct (matchDateAt (String c (pre ++ rest))); [discriminate |].
      exact (IH _ Hnone rest d eq_refl Hm).
  - intros H. induction s as [| c s IH].
    + rewrite matchDate_unfold.
      destruct (matchDateAt "") as [d |] eqn:E; [| reflexivity].
      apply matchDateAt_iff in E. now destruct (H "" "" d eq_refl).
    + destruct (matchDateAt (String c s)) as [d |] eqn:E.
      * apply matchDateAt_iff in E.
        now destruct (H "" (String c s) d eq_refl).
      * rewrite (matchDate_later _ _ E). apply IH.
        intros pre rest d -> Hm.
        exact (H (String c pre) rest d eq_refl Hm).
Qed.

(** The digits of the text of a date. *)
Lemma digitValue_digit (k : Z) :
  0 <= k < 10 -> digitValue (DateText.digit k) = k.
Proof.
  intros H.
  DateTextFacts.by_range (fun k => digitValue (DateText.digit k) =? k)
                         10%positive.
  now apply Z.eqb_eq.
Qed.

Lemma isDigit_digit (k : Z) :
  0 <= k < 10 -> isDigit (DateText.digit k) = true.
Proof.
  intros H.
  DateTextFacts.by_range (fun k => isDigit (DateText.digit k)) 10%positive.
  assumption.
Qed.

Lemma padded_four_digits (y : Z) :
  0 <= y < 10000 -> DateText.ToZeroPaddedDecimalString y 4 = fourDigits y.
Proof.
  intros H.
  DateTextFacts.by_range
    (fun y => (DateText.ToZeroPaddedDecimalString y 4 =? fourDigits y)%string)
    10000%positive.
  now apply String.eqb_eq.
Qed.

Lemma isoText_digits (y m d : Z) :
  0 <= y < 10000 -> 0 <= m < 100 -> 0 <= d < 100 ->
  isoText y m d
  = (fourDigits y ++ "-" ++ DateText.twoDigits m ++ "-"
     ++ DateText.twoDigits d)%string.
Proof.
  intros Hy Hm Hd. unfold isoText.
  now rewrite padded_four_digits, !DateTextFacts.padded_two_digits.
Qed.

Lemma isoText_isDateText (y m d : Z) :
  0 <= y < 10000 -> 0 <= m < 100 -> 0 <= d < 100 ->
  isDateText (isoText y m d).
Proof.
  intros Hy Hm Hd. rewrite isoText_digits by assumption.
  unfold isDateText, fourDigits, DateText.twoDigits.
  cbn [String.append takeDate].
  rewrite !isDigit_digit; [reflexivity | ..];
    Z.to_euclidean_division_equations; lia.
Qed.

(** The text yyyy-mm-dd of a day is read as the start of that day in
    UTC. *)
Lemma dateOfText_isoText {legacy : LegacyParser} (y m d : Z) :
  0 <= y < 10000 -> 1 <= m <= 12 -> 1 <= d <= 31 ->
  dateOfText (isoText y m d)
  = DateOf (Calendar.days_from_civil (Calendar.mkCivil y m d)
            * Calendar.msPerDay).
Proof.
  intros Hy Hm Hd. rewrite isoText_digits by lia.
  unfold fourDigits, DateText.twoDigits.
  cbn [String.append dateOfText].
  rewrite !digitValue_digit by (Z.to_euclidean_division_equations; lia).
  replace (1000 * (y / 1000) + 100 * (y / 100 mod 10)
           + 10 * (y / 10 mod 10) + y mod 10) with y
    by (Z.to_euclidean_division_equations; lia).
  replace (10 * (m / 10) + m mod 10) with m
    by (Z.to_euclidean_division_equations; lia).
  replace (10 * (d / 10) + d mod 10) with d
    by (Z.to_euclidean_division_equations; lia).
  destruct (Z.leb_spec 1 m), (Z.leb_spec m 12), (Z.leb_spec 1 d),
    (Z.leb_spec d 31); try lia.
  reflexivity.
Qed.

(** A month that is not one of 1 to 12 gives an invalid date, when the
    year is above 31. *)
Lemma dateOfText_wrong_month {legacy : LegacyParser} (y m d : Z) :
  32 <= y < 10000 -> 0 <= m < 100 -> 0 <= d < 100 ->
  m = 0 \/ 12 < m ->
  dateOfText (isoText y m d) = InvalidDate.
Proof.
  intros Hy Hm Hd Hwrong. rewrite isoText_digits by lia.
  unfold fourDigits, DateText.twoDigits.
  cbn [String.append dateOfText].
  rewrite !digitValue_digit by (Z.to_euclidean_division_equations; lia).
  replace (1000 * (y / 1000) + 100 * (y / 100 mod 10)
           + 10 * (y / 10 mod 10) + y mod 10) with y
    by (Z.to_euclidean_division_equations; lia).
  replace (10 * (m / 10) + m mod 10) with m
    by (Z.to_euclidean_division_equations; lia).
  destruct (Z.leb_spec 1 m), (Z.leb_spec m 12), (Z.leb_spec 1 y),
    (Z.leb_spec y 31); try lia; reflexivity.
Qed.

End NoteDateFacts.

(** ** The rest of the plugin *)
Section MoreFacts.

Context {zone : TimeZone} {ical : ICAL} {vault : Vault}.
Context {legacy : LegacyParser}.

(** *** More on the queries *)

Lemma filter_by_day (now : Z) (evs : list Event) :
  filter (fun e => (toDateString (newDate (start e))
                    =? toDateString (DateOf now))%string) evs
  = eventsOnDate evs (DateOf now).
Proof.
  apply filter_ext. intros e.
  apply toDateString_eqb_sameLocalDay. now right.
Qed.

(** The events of today are the events whose start is on the local day of
    the clock, whatever the collection holds; [getTodaysEvents] is
    [getEventsForDate] at the time of the clock. *)
Theorem getTodaysEvents_today (now : Z) (p : Plugin) :
  getTodaysEvents now p = (Returned (eventsOnDate (events p) (DateOf now)), p)
  /\ getTodaysEvents now p = getEventsForDate (DateOf now) p.
Proof.
  split; [| reflexivity].
  unfold getTodaysEvents, bind, this_events, ret.
  now rewrite filter_by_day.
Qed.

(** The time of the day of the target date plays no part: two target times
    in the same local day give the same events. *)
Theorem getEventsForDate_time_of_day (t1 t2 : Z) (p : Plugin) :
  Calendar.Day (LocalTime t1) = Calendar.Day (LocalTime t2) ->
  getEventsForDate (DateOf t1) p = getEventsForDate (DateOf t2) p.
Proof.
  intros Hday. rewrite !getEventsForDate_filter.
  assert (E : toDateString (DateOf t1) = toDateString (DateOf t2))
    by (now apply DateTextFacts.DateString_of_Day).
  now rewrite E.
Qed.

(** Every event of the collection is found by the query for its own
    start. *)
Theorem getEventsForDate_own_start (e : Event) (p : Plugin) :
  In e (events p) ->
  exists evs, getEventsForDate (start e) p = (Returned evs, p) /\ In e evs.
Proof.
  intros Hin. eexists. split; [apply getEventsForDate_filter |].
  apply filter_In. split; [exact Hin | apply String.eqb_refl].
Qed.

(** For a target that is an invalid date, the query returns the events
    whose start is an invalid date, and no other. *)
Theorem getEventsForDate_invalid_target (p : Plugin) :
  getEventsForDate InvalidDate p
  = (Returned (filter (fun e => negb (isValid (start e))) (events p)), p).
Proof.
  rewrite getEventsForDate_filter. f_equal. f_equal.
  apply filter_ext. intros e. destruct (start e) as [| tv]; [reflexivity |].
  apply String.eqb_neq. apply DateTextFacts.DateString_not_Invalid.
Qed.

Lemma appendRow_throws (s : string) (e : Event) (err : Error) :
  appendRow (Returned s) e = Thrown err ->
  err = RangeError "Invalid time value".
Proof.
  unfold appendRow. cbn [obind].
  destruct (start e) as [| tv]; cbn [format_HHmm obind]; congruence.
Qed.

Lemma fold_appendRow_invalid (evs : list Event) :
  Exists (fun e => start e = InvalidDate) evs ->
  forall s, fold_left appendRow evs (Returned s)
            = Thrown (RangeError "Invalid time value").
Proof.
  induction 1 as [e evs He | e evs _ IH]; intros s; cbn [fold_left].
  - unfold appendRow at 2. cbn [obind]. rewrite He. cbn [format_HHmm obind].
    apply fold_appendRow_thrown.
  - destruct (appendRow (Returned s) e) as [s' | err] eqn:E.
    + apply IH.
    + apply appendRow_throws in E. subst err. apply fold_appendRow_thrown.
Qed.

(** The renderer throws the RangeError of [format] as soon as one event
    starts at an invalid date, and returns a text when every event starts
    at a valid date. *)
Theorem formatEvents_throws (evs : list Event) :
  (Exists (fun e => start e = InvalidDate) evs ->
   formatEvents evs = Thrown (RangeError "Invalid time value"))
  /\ (Forall validStart evs -> exists s, formatEvents evs = Returned s).
Proof.
  split.
  - intros Hex. destruct evs as [| e evs]; [inversion Hex |].
    unfold formatEvents. cbn [List.length Nat.eqb].
    now apply fold_appendRow_invalid.
  - intros Hvalid. destruct evs as [| e evs]; [now eexists |].
    unfold formatEvents. cbn [List.length Nat.eqb].
    rewrite (fold_appendRow_valid _ Hvalid). now eexists.
Qed.

Lemma sameLocalDay_startsOnDay (t : Z) (e : Event) :
  sameLocalDay (start e) (DateOf t)
  = startsOnDay (Calendar.Day (LocalTime t)) e.
Proof.
  unfold startsOnDay. destruct (start e) as [| tv]; [reflexivity |].
  apply eq_true_iff_eq. rewrite sameLocalDay_Day. symmetry. apply Z.eqb_eq.
Qed.

Lemma formatEvents_renderTable (evs : list Event) :
  Forall validStart evs -> formatEvents evs = Returned (renderTable evs).
Proof.
  intros Hvalid. destruct evs as [| e evs]; [reflexivity |].
  unfold formatEvents. cbn [List.length Nat.eqb].
  now rewrite (fold_appendRow_valid _ Hvalid).
Qed.

Lemma Forall_filter {A : Type} (P : A -> Prop) (f : A -> bool) (l : list A) :
  Forall P l -> Forall P (filter f l).
Proof.
  intros H. apply Forall_forall. intros x Hx. apply filter_In in Hx as [Hx _].
  rewrite Forall_forall in H. now apply H.
Qed.

(** The query and the renderer in a row, as [insertTodaysEvents] has them:
    for a valid target time, over events that start at valid dates, the
    text is the table of the events that start on the local day of the
    target, in the order of the collection, or the text that there are
    none. *)
Theorem insertedText_of_day (t : Z) (p : Plugin) :
  Forall validStart (events p) ->
  insertedText (DateOf t) p
  = (Returned
       (renderTable
          (filter (startsOnDay (Calendar.Day (LocalTime t))) (events p))),
     p).
Proof.
  intros Hvalid. unfold insertedText, bind, lift.
  rewrite getEventsForDate_filter, filter_by_day.
  unfold eventsOnDate.
  rewrite (filter_ext _ _ (sameLocalDay_startsOnDay t)).
  rewrite formatEvents_renderTable by now apply Forall_filter.
  reflexivity.
Qed.

(** *** More on the load *)

Lemma loadEvents_settings (p : Plugin) :
  settings (after (loadEvents p)) = settings p.
Proof.
  destruct (string_dec (icsDirectory (settings p)) "") as [Hdir | Hdir].
  - now rewrite loadEvents_unconfigured.
  - now rewrite loadEvents_configured.
Qed.

(** A second load in a row leaves the collection that the first left: a
    refresh adds no event twice. *)
Theorem loadEvents_twice (p : Plugin) :
  events (after (loadEvents (after (loadEvents p))))
  = events (after (loadEvents p)).
Proof.
  destruct (string_dec (icsDirectory (settings p)) "") as [Hdir | Hdir].
  - rewrite (loadEvents_unconfigured p Hdir). cbn [after snd].
    now rewrite loadEvents_unconfigured.
  - assert (Hdir' : icsDirectory (settings (after (loadEvents p))) <> "")
      by now rewrite loadEvents_settings.
    rewrite (loadEvents_configured _ Hdir'), loadEvents_settings.
    now rewrite (loadEvents_configured p Hdir).
Qed.

(** A load keeps the settings and shows one notice; with the directory
    set, the number in the notice is the number of events of the
    collection that the load leaves. *)
Theorem loadEvents_notice (p : Plugin) :
  settings (after (loadEvents p)) = settings p
  /\ exists text,
       notices (after (loadEvents p)) = (notices p ++ [text])%list
       /\ (icsDirectory (settings p) <> "" ->
           text = loadedText (events (after (loadEvents p))))
       /\ (icsDirectory (settings p) = "" -> text = notSetText).
Proof.
  split; [apply loadEvents_settings |].
  destruct (string_dec (icsDirectory (settings p)) "") as [Hdir | Hdir].
  - exists notSetText. rewrite (loadEvents_unconfigured p Hdir).
    split; [reflexivity |]. split; [contradiction | reflexivity].
  - eexists. rewrite (loadEvents_configured p Hdir).
    split; [reflexivity |]. split; [reflexivity | contradiction].
Qed.

(** With the directory set, the events of the collection that a load
    leaves are the events of the files of the vault whose path starts with
    the directory and whose extension is ics, and no other. *)
Theorem loadEvents_sources (p : Plugin) (e : Event) :
  icsDirectory (settings p) <> "" ->
  In e (events (after (loadEvents p)))
  <-> exists file,
        In file getFiles
        /\ String.prefix (icsDirectory (settings p)) (path file) = true
        /\ extension file = "ics"
        /\ In e (contribution file).
Proof.
  intros Hdir. rewrite (loadEvents_configured p Hdir). cbn [after snd events].
  rewrite in_flat_map. unfold icsFilesOf.
  split; intros (file & Hfile & He); exists file.
  - apply filter_In in Hfile as (Hin & Hf).
    apply andb_true_iff in Hf as (Hpre & Hext).
    apply String.eqb_eq in Hext. auto.
  - destruct He as (Hpre & Hext & He). split; [| exact He].
    apply filter_In. split; [exact Hfile |].
    now rewrite Hpre, Hext.
Qed.

Lemma prefix_app (a b : string) : String.prefix a (a ++ b) = true.
Proof.
  induction a as [| c a IH]; cbn [String.append String.prefix];
    [now destruct b |].
  destruct (ascii_dec c c) as [_ | Hne]; [exact IH | contradiction].
Qed.

(** The directory is matched as a start of the path, with no regard for
    where the names of the path end: a file with extension ics whose path
    is the directory followed by any text at all is loaded. *)
Theorem loadEvents_path_start (p : Plugin) (file : TFile) (more : string)
        (e : Event) :
  icsDirectory (settings p) <> "" ->
  In file getFiles ->
  extension file = "ics" ->
  path file = icsDirectory (settings p) ++ more ->
  In e (contribution file) ->
  In e (events (after (loadEvents p))).
Proof.
  intros Hdir Hin Hext Hpath He.
  apply (loadEvents_sources p e Hdir). exists file.
  repeat split; try assumption. rewrite Hpath. apply prefix_app.
Qed.

(** Each run of a load that is in progress keeps the events that the
    collection holds and adds, after them, the events of the file that was
    read. *)
Theorem step_grows (c c' : Config) :
  step c c' ->
  exists file rest,
    fst c = AwaitingRead file rest
    /\ observed c' = (observed c ++ contribution file)%list
    /\ pending c' = rest.
Proof.
  intros Hstep. destruct Hstep as [file rest p].
  exists file, rest. split; [reflexivity |].
  rewrite resume_contribution.
  destruct rest as [| next rest]; split; reflexivity.
Qed.

(** The command that refreshes shows the notice of the load and then the
    notice that the events are refreshed, also when the directory is not
    set and the load has left the collection as it was. *)
Theorem refreshCommand_notices (p : Plugin) :
  result (refreshCommand p) = Returned tt
  /\ events (after (refreshCommand p)) = events (after (loadEvents p))
  /\ notices (after (refreshCommand p))
     = (notices (after (loadEvents p)) ++ ["ICS events refreshed"])%list
  /\ (icsDirectory (settings p) = "" ->
      events (after (refreshCommand p)) = events p
      /\ notices (after (refreshCommand p))
         = (notices p ++ [notSetText; "ICS events refreshed"])%list).
Proof.
  assert (Hrun : refreshCommand p
                 = (Returned tt,
                    {| settings := settings (after (loadEvents p));
                       events := events (after (loadEvents p));
                       notices := notices (after (loadEvents p))
                                  ++ ["ICS events refreshed"] |})).
  { unfold refreshCommand, bind.
    pose proof (loadEvents_returns p) as Hr. unfold result in Hr.
    destruct (loadEvents p) as [r q]. cbn [fst] in Hr. subst r.
    reflexivity. }
  rewrite Hrun. cbn [result after fst snd events notices].
  split; [reflexivity |]. split; [reflexivity |]. split; [reflexivity |].
  intros Hdir. rewrite (loadEvents_unconfigured p Hdir).
  cbn [after snd events notices]. split; [reflexivity |].
  now rewrite <- app_assoc.
Qed.

(** *** Settings *)

(** What [saveSettings] saves, [loadSettings] loads back: the settings are
    those that were saved, whatever they were before; with no saved data,
    or data without the key, the directory is the empty string.  The
    collection is not touched. *)
Theorem settings_round_trip (p q : Plugin) :
  (exists data,
     saveSettings p = (Returned data, p)
     /\ settings (after (loadSettings (Some data) q)) = settings p)
  /\ settings (after (loadSettings None q)) = DEFAULT_SETTINGS
  /\ settings (after (loadSettings
                        (Some {| saved_icsDirectory := None |}) q))
     = DEFAULT_SETTINGS
  /\ (forall data, events (after (loadSettings data q)) = events q).
Proof.
  split; [| repeat split].
  exists {| saved_icsDirectory := Some (icsDirectory (settings p)) |}.
  split; [reflexivity |]. cbn. now destruct (settings p).
Qed.

Lemma onload_run (data : option SavedData) (p : Plugin) :
  onload data p
  = loadEvents {| settings := assignSettings DEFAULT_SETTINGS data;
                  events := events p; notices := notices p |}.
Proof. reflexivity. Qed.

(** At the start, with no saved data, the plugin shows the notice that the
    directory is not set and loads nothing; with a saved directory that is
    not empty, the collection is made of the files under it. *)
Theorem onload_start (p : Plugin) :
  onload None p
  = (Returned tt,
     {| settings := DEFAULT_SETTINGS; events := events p;
        notices := notices p ++ [notSetText] |})
  /\ (forall dir,
        dir <> "" ->
        result (onload (Some {| saved_icsDirectory := Some dir |}) p)
        = Returned tt
        /\ settings (after (onload
                              (Some {| saved_icsDirectory := Some dir |}) p))
           = {| icsDirectory := dir |}
        /\ events (after (onload
                            (Some {| saved_icsDirectory := Some dir |}) p))
           = flat_map contribution (icsFilesOf dir)).
Proof.
  split.
  - rewrite onload_run. now rewrite loadEvents_unconfigured.
  - intros dir Hdir. rewrite onload_run.
    rewrite loadEvents_configured by exact Hdir.
    repeat split.
Qed.

(** *** The events of the day of a note *)

Lemma insertTodaysEvents_dated (file : TFile) (text group1 : string)
      (now : Z) (p : Plugin) :
  read file = Returned text ->
  NoteDate.matchDate text = Some group1 ->
  insertTodaysEvents (Some file) now p
  = insertedText (NoteDate.dateOfText group1) p.
Proof.
  intros Hread Hmatch.
  unfold insertTodaysEvents, insertedText, bind, lift, ret.
  rewrite Hread, Hmatch.
  destruct (getEventsForDate (NoteDate.dateOfText group1) p) as [[evs |] q];
    [| reflexivity].
  now destruct (formatEvents evs).
Qed.

Lemma insertTodaysEvents_undated (activeFile : option TFile) (now : Z)
      (p : Plugin) :
  activeFile = None
  \/ (exists file text,
        activeFile = Some file /\ read file = Returned text
        /\ NoteDate.matchDate text = None) ->
  insertTodaysEvents activeFile now p = insertedText (DateOf now) p.
Proof.
  intros [-> | (file & text & -> & Hread & Hmatch)];
    unfold insertTodaysEvents, insertedText, bind, lift, ret;
    [| rewrite Hread, Hmatch];
    (destruct (getEventsForDate (DateOf now) p) as [[evs |] q];
     [| reflexivity]); now destruct (formatEvents evs).
Qed.

(** With no active file, or an active file whose text has no date, the
    text handed to the editor is the table of the events of the local day
    of the clock (over events that start at valid dates). *)
Theorem insertTodaysEvents_today (activeFile : option TFile) (now : Z)
        (p : Plugin) :
  activeFile = None
  \/ (exists file text,
        activeFile = Some file /\ read file = Returned text
        /\ NoteDate.matchDate text = None) ->
  Forall validStart (events p) ->
  insertTodaysEvents activeFile now p
  = (Returned
       (renderTable
          (filter (startsOnDay (Calendar.Day (LocalTime now))) (events p))),
     p).
Proof.
  intros Hnone Hvalid.
  rewrite (insertTodaysEvents_undated activeFile now p Hnone).
  now apply insertedText_of_day.
Qed.

Lemma Day_of_start_of_day (day offset : Z) :
  Calendar.Day (day * Calendar.msPerDay + offset)
  = day + offset / Calendar.msPerDay.
Proof.
  unfold Calendar.Day. rewrite Z.add_comm, Z.div_add by discriminate. lia.
Qed.

(** With a date yyyy-mm-dd in the text of the active file, the target is
    the start of that day in UTC, and the events handed to the editor are
    those of the local day in which that instant falls: the written day
    where local time is ahead of UTC or equal to it, the day before where
    local time is behind UTC. *)
Theorem insertTodaysEvents_written_day (file : TFile) (text : string)
        (y m d now : Z) (p : Plugin) :
  read file = Returned text ->
  NoteDate.matchDate text = Some (NoteDate.isoText y m d) ->
  0 <= y < 10000 -> 1 <= m <= 12 -> 1 <= d <= 31 ->
  Forall validStart (events p) ->
  let day := Calendar.days_from_civil (Calendar.mkCivil y m d) in
  let offset := LocalTZA (day * Calendar.msPerDay) in
  insertTodaysEvents (Some file) now p
  = (Returned
       (renderTable
          (filter (startsOnDay (day + offset / Calendar.msPerDay))
                  (events p))),
     p)
  /\ (0 <= offset < Calendar.msPerDay ->
      day + offset / Calendar.msPerDay = day)
  /\ (- Calendar.msPerDay <= offset < 0 ->
      day + offset / Calendar.msPerDay = day - 1).
Proof.
  intros Hread Hmatch Hy Hm Hd Hvalid day offset. split; [| split].
  - rewrite (insertTodaysEvents_dated file text _ now p Hread Hmatch).
    rewrite NoteDateFacts.dateOfText_isoText by assumption.
    rewrite insertedText_of_day by assumption.
    unfold LocalTime. fold day. fold offset.
    now rewrite Day_of_start_of_day.
  - intros Hoff. rewrite Z.div_small by exact Hoff. lia.
  - unfold Calendar.msPerDay. intros Hoff.
    Z.to_euclidean_division_equations. lia.
Qed.

(** A written date whose month is not one of 1 to 12, in a year above 31,
    gives an invalid target, not the date of the clock: the text handed to
    the editor is that there are no events, whatever the collection holds
    of events that start at valid dates. *)
Theorem insertTodaysEvents_wrong_month (file : TFile) (text : string)
        (y m d now : Z) (p : Plugin) :
  read file = Returned text ->
  NoteDate.matchDate text = Some (NoteDate.isoText y m d) ->
  32 <= y < 10000 -> 0 <= m < 100 -> 0 <= d < 100 ->
  m = 0 \/ 12 < m ->
  Forall validStart (events p) ->
  insertTodaysEvents (Some file) now p
  = (Returned "No events for this date.", p).
Proof.
  intros Hread Hmatch Hy Hm Hd Hwrong Hvalid.
  rewrite (insertTodaysEvents_dated file text _ now p Hread Hmatch).
  rewrite NoteDateFacts.dateOfText_wrong_month by assumption.
  unfold insertedText, bind, lift.
  rewrite getEventsForDate_invalid_target.
  assert (Hnone : filter (fun e => negb (isValid (start e))) (events p) = []).
  { induction Hvalid as [| e evs He _ IH]; cbn [filter]; [reflexivity |].
    unfold validStart in He. now rewrite He. }
  now rewrite Hnone.
Qed.

(** When the active file cannot be read, [insertTodaysEvents] throws the
    error of the read: no text is handed to the editor; and in no case does
    it change the plugin. *)
Theorem insertTodaysEvents_read_failure (file : TFile) (err : Error)
        (now : Z) (p : Plugin) :
  read file = Thrown err ->
  insertTodaysEvents (Some file) now p = (Thrown err, p)
  /\ forall activeFile now', after (insertTodaysEvents activeFile now' p) = p.
Proof.
  intros Hread. split.
  - unfold insertTodaysEvents, bind, lift. now rewrite Hread.
  - intros activeFile now'.
    unfold insertTodaysEvents, bind, lift, ret, after.
    destruct activeFile as [f |].
    + destruct (read f) as [text |]; [| reflexivity].
      rewrite getEventsForDate_filter.
      match goal with |- context [formatEvents ?l] =>
        now destruct (formatEvents l) end.
    + rewrite getEventsForDate_filter.
      match goal with |- context [formatEvents ?l] =>
        now destruct (formatEvents l) end.
Qed.

(** *** Two loads at once *)

Lemma resume_effect (file : TFile) (rest : list TFile) (p : Plugin) :
  pendingOf (fst (resume file rest p)) = rest
  /\ events (snd (resume file rest p))
     = (events p ++ contribution file)%list
  /\ settings (snd (resume file rest p)) = settings p.
Proof.
  rewrite resume_contribution. destruct rest as [| next rest];
    repeat split.
Qed.

Lemma begin_effect (p : Plugin) :
  icsDirectory (settings p) <> "" ->
  pendingOf (fst (begin p)) = icsFilesOf (icsDirectory (settings p))
  /\ events (snd (begin p)) = []
  /\ settings (snd (begin p)) = settings p.
Proof.
  intros Hdir. unfold begin. apply String.eqb_neq in Hdir. rewrite Hdir.
  destruct (icsFilesOf (icsDirectory (settings p))) as [| file rest];
    repeat split.
Qed.

Lemma Permutation_add_last {A : Type} (l a b c : list A) :
  Permutation l (a ++ b) ->
  Permutation (l ++ c) ((a ++ c) ++ b).
Proof.
  intros H. rewrite <- app_assoc.
  rewrite (Permutation_app_comm c b), app_assoc.
  now apply Permutation_app_tail.
Qed.

Lemma duoInvariant_step (left : list TFile) (dir : string) (d d' : Duo) :
  duoInvariant left dir d -> duo_step d d' -> duoInvariant left dir d'.
Proof.
  intros (doneFirst & doneSecond & Hfirst & Hsecond & Hperm) Hstep.
  destruct Hstep as [file rest t p | file rest t p];
    cbn [first second shared pendingOf] in *;
    destruct (resume_effect file rest p) as (Hpending & Hevents & _).
  - exists (doneFirst ++ [file])%list, doneSecond.
    cbn [first second shared].
    rewrite Hpending, Hevents, <- app_assoc. split; [exact Hfirst |].
    split; [exact Hsecond |].
    rewrite flat_map_app. cbn [flat_map]. rewrite app_nil_r.
    now apply Permutation_add_last.
  - exists doneFirst, (doneSecond ++ [file])%list.
    cbn [first second shared].
    rewrite Hpending, Hevents, <- app_assoc. split; [exact Hfirst |].
    split; [exact Hsecond |].
    rewrite flat_map_app. cbn [flat_map]. rewrite app_nil_r, app_assoc.
    now apply Permutation_app_tail.
Qed.

Lemma duo_reached_invariant (file : TFile) (rest : list TFile) (p : Plugin)
      (d : Duo) :
  icsDirectory (settings p) <> "" ->
  duo_reached (AwaitingRead file rest, p) d ->
  duoInvariant (file :: rest) (icsDirectory (settings p)) d.
Proof.
  intros Hdir Hreached.
  induction Hreached as [| d d' _ IH Hstep].
  - destruct (begin_effect p Hdir) as (Hpending & Hevents & _).
    exists [], []. unfold overlap. cbn [first second shared fst snd pendingOf].
    rewrite Hpending, Hevents. repeat split. constructor.
  - now apply (duoInvariant_step _ _ d d').
Qed.

Lemma duo_first_settles (c : Config) (rest : list TFile) :
  forall file t p,
    duo_reached c {| first := AwaitingRead file rest; second := t;
                     shared := p |} ->
    exists p', duo_reached c {| first := Settled; second := t;
                                shared := p' |}.
Proof.
  induction rest as [| next rest IH]; intros file t p Hreached.
  - eexists. eapply duo_next; [exact Hreached |].
    pose proof (duo_first file [] t p) as Hstep.
    rewrite resume_contribution in Hstep. exact Hstep.
  - pose proof (duo_first file (next :: rest) t p) as Hstep.
    rewrite resume_contribution in Hstep.
    exact (IH next t _ (duo_next c _ _ Hreached Hstep)).
Qed.

Lemma duo_second_settles (c : Config) (rest : list TFile) :
  forall file t p,
    duo_reached c {| first := t; second := AwaitingRead file rest;
                     shared := p |} ->
    exists p', duo_reached c {| first := t; second := Settled;
                                shared := p' |}.
Proof.
  induction rest as [| next rest IH]; intros file t p Hreached.
  - eexists. eapply duo_next; [exact Hreached |].
    pose proof (duo_second file [] t p) as Hstep.
    rewrite resume_contribution in Hstep. exact Hstep.
  - pose proof (duo_second file (next :: rest) t p) as Hstep.
    rewrite resume_contribution in Hstep.
    exact (IH next t _ (duo_next c _ _ Hreached Hstep)).
Qed.

(** A load started while another is suspended empties the collection that
    the other was filling, and both then add to the same collection: when
    both have settled, in whatever order their reads settle, the
    collection holds the events of the files that the first had still to
    read and, besides, the events of all the files, so these events are
    there twice; and both loads do settle. *)
Theorem overlapping_loads (file : TFile) (rest : list TFile) (p : Plugin) :
  icsDirectory (settings p) <> "" ->
  (forall d,
     duo_reached (AwaitingRead file rest, p) d ->
     first d = Settled -> second d = Settled ->
     Permutation
       (events (shared d))
       (flat_map contribution (file :: rest)
        ++ flat_map contribution (icsFilesOf (icsDirectory (settings p)))))
  /\ exists d,
       duo_reached (AwaitingRead file rest, p) d
       /\ first d = Settled /\ second d = Settled.
Proof.
  intros Hdir. split.
  - intros d Hreached Hfirst Hsecond.
    destruct (duo_reached_invariant file rest p d Hdir Hreached)
      as (doneFirst & doneSecond & H1 & H2 & Hperm).
    rewrite Hfirst in H1. rewrite Hsecond in H2.
    cbn [pendingOf] in H1, H2. rewrite app_nil_r in H1, H2.
    now subst doneFirst doneSecond.
  - pose proof (duo_begin (AwaitingRead file rest, p)) as Hbegin.
    unfold overlap in Hbegin. cbn [fst snd] in Hbegin.
    destruct (duo_first_settles _ rest file _ _ Hbegin) as (p1 & H1).
    destruct (fst (begin p)) as [file2 rest2 |].
    + destruct (duo_second_settles _ rest2 file2 _ _ H1) as (p2 & H2).
      now exists {| first := Settled; second := Settled; shared := p2 |}.
    + now exists {| first := Settled; second := Settled; shared := p1 |}.
Qed.

End MoreFacts.

(** ** More properties on the example data *)
Module DemoMoreFacts.
Import Demo DemoMore.

Lemma some_valid_starts : Forall validStart [brunch; standup].
Proof. repeat constructor. Qed.

Lemma getEventsForDate_time_of_day_witness :
  Calendar.Day (LocalTime (zone := tz) 1705305600000)
  = Calendar.Day (LocalTime (zone := tz) 1705330800000)
  /\ getEventsForDate (zone := tz) (DateOf 1705305600000)
       (configured [retro; review; standup])
     = getEventsForDate (zone := tz) (DateOf 1705330800000)
         (configured [retro; review; standup]).
Proof.
  split; [reflexivity |].
  apply (getEventsForDate_time_of_day (zone := tz)). reflexivity.
Defined.

Lemma getEventsForDate_own_start_witness :
  In broken (events (configured [standup; broken]))
  /\ exists evs,
       getEventsForDate (zone := tz) (start broken)
         (configured [standup; broken])
       = (Returned evs, configured [standup; broken])
       /\ In broken evs.
Proof.
  assert (H : In broken (events (configured [standup; broken])))
    by (right; left; reflexivity).
  split; [exact H |].
  exact (getEventsForDate_own_start (zone := tz) broken _ H).
Defined.

Lemma formatEvents_throws_witness :
  Exists (fun e => start e = InvalidDate) [standup; broken]
  /\ formatEvents (zone := tz) [standup; broken]
     = Thrown (RangeError "Invalid time value")
  /\ Forall validStart [brunch; standup]
  /\ exists s, formatEvents (zone := tz) [brunch; standup] = Returned s.
Proof.
  assert (H : Exists (fun e => start e = InvalidDate) [standup; broken])
    by (right; left; reflexivity).
  split; [exact H |].
  split; [exact (proj1 (formatEvents_throws (zone := tz) _) H) |].
  split; [exact some_valid_starts |].
  exact (proj2 (formatEvents_throws (zone := tz) _) some_valid_starts).
Defined.

Lemma insertedText_of_day_witness :
  Forall validStart (events (configured [retro; review; standup]))
  /\ insertedText (zone := tz) (DateOf noon)
       (configured [retro; review; standup])
     = (Returned ("| Time | Event |" ++ nl ++ "|------|-------|" ++ nl
                  ++ "| 16:00 | Retro |" ++ nl
                  ++ "| 09:00 | Standup |" ++ nl),
        configured [retro; review; standup]).
Proof.
  split; [exact DemoFacts.valid_starts |].
  rewrite (insertedText_of_day (zone := tz) noon
             (configured [retro; review; standup]) DemoFacts.valid_starts).
  vm_compute. reflexivity.
Defined.

Lemma loadEvents_notice_witness :
  icsDirectory (settings (configured [stale])) <> ""
  /\ notices (after (loadEvents (ical := lib) (vault := mixedVault)
                       (configured [stale])))
     = ["Loaded 3 events from ICS files."].
Proof.
  split; [apply DemoFacts.configured_directory |].
  destruct (loadEvents_notice (ical := lib) (vault := mixedVault)
              (configured [stale]))
    as (_ & text & Hnotices & Hset & _).
  rewrite Hnotices, (Hset (DemoFacts.configured_directory [stale])).
  vm_compute. reflexivity.
Defined.

Lemma loadEvents_sources_witness :
  icsDirectory (settings (configured [stale])) <> ""
  /\ (In retro (events (after (loadEvents (ical := lib) (vault := mixedVault)
                                 (configured [stale]))))
      <-> exists file,
            In file (getFiles (Vault := mixedVault))
            /\ String.prefix "calendars" (path file) = true
            /\ extension file = "ics"
            /\ In retro (contribution (ical := lib) (vault := mixedVault)
                           file)).
Proof.
  split; [apply DemoFacts.configured_directory |].
  exact (loadEvents_sources (ical := lib) (vault := mixedVault)
           (configured [stale]) retro
           (DemoFacts.configured_directory [stale])).
Defined.

Lemma loadEvents_path_start_witness :
  icsDirectory (settings (configured [])) <> ""
  /\ In archiveFile (getFiles (Vault := siblingVault))
  /\ extension archiveFile = "ics"
  /\ path archiveFile = icsDirectory (settings (configured []))
                        ++ "-archive/team.ics"
  /\ In retro (contribution (ical := lib) (vault := siblingVault) archiveFile)
  /\ In retro (events (after (loadEvents (ical := lib) (vault := siblingVault)
                                (configured [])))).
Proof.
  assert (H1 : In archiveFile (getFiles (Vault := siblingVault)))
    by (right; left; reflexivity).
  assert (H2 : In retro (contribution (ical := lib) (vault := siblingVault)
                           archiveFile))
    by (vm_compute; left; reflexivity).
  split; [apply DemoFacts.configured_directory |].
  split; [exact H1 |]. split; [reflexivity |]. split; [reflexivity |].
  split; [exact H2 |].
  exact (loadEvents_path_start (ical := lib) (vault := siblingVault)
           (configured []) archiveFile "-archive/team.ics" retro
           (DemoFacts.configured_directory []) H1 eq_refl eq_refl H2).
Defined.

Lemma step_to_halfway :
  step (ical := lib) (vault := twoVault)
       (AwaitingRead workFile [teamFile], suspended) halfway.
Proof. apply step_resume. Qed.

Lemma step_grows_witness :
  step (ical := lib) (vault := twoVault)
       (AwaitingRead workFile [teamFile], suspended) halfway
  /\ exists file rest,
       fst (AwaitingRead workFile [teamFile], suspended)
       = AwaitingRead file rest
       /\ observed halfway
          = (observed (AwaitingRead workFile [teamFile], suspended)
             ++ contribution (ical := lib) (vault := twoVault) file)%list
       /\ pending halfway = rest.
Proof.
  split; [exact step_to_halfway |].
  exact (step_grows (ical := lib) (vault := twoVault) _ _ step_to_halfway).
Defined.

Lemma refreshCommand_notices_witness :
  icsDirectory (settings (unconfigured [stale])) = ""
  /\ events (after (refreshCommand (ical := lib) (vault := mixedVault)
                      (unconfigured [stale])))
     = [stale]
  /\ notices (after (refreshCommand (ical := lib) (vault := mixedVault)
                       (unconfigured [stale])))
     = [notSetText; "ICS events refreshed"].
Proof.
  split; [reflexivity |].
  destruct (refreshCommand_notices (ical := lib) (vault := mixedVault)
              (unconfigured [stale]))
    as (_ & _ & _ & H).
  exact (H eq_refl).
Defined.

Lemma onload_start_witness :
  "calendars" <> ""
  /\ events (after (onload (ical := lib) (vault := mixedVault)
                      (Some {| saved_icsDirectory := Some "calendars" |})
                      initialPlugin))
     = [standup; retro; review].
Proof.
  assert (H : "calendars" <> "") by discriminate.
  split; [exact H |].
  destruct (onload_start (ical := lib) (vault := mixedVault) initialPlugin)
    as (_ & Hdir).
  destruct (Hdir "calendars" H) as (_ & _ & Hevents).
  rewrite Hevents. vm_compute. reflexivity.
Defined.

Lemma matchDate_first_witness :
  NoteDate.matchDate updateText = Some "2023-12-24"
  /\ exists pre rest,
       updateText = pre ++ rest /\ NoteDate.MatchAt rest "2023-12-24"
       /\ forall pre' rest' d',
            updateText = pre' ++ rest' -> NoteDate.MatchAt rest' d' ->
            (String.length pre <= String.length pre')%nat.
Proof.
  assert (H : NoteDate.matchDate updateText = Some "2023-12-24")
    by reflexivity.
  split; [exact H |].
  exact (proj1 (NoteDateFacts.matchDate_first updateText "2023-12-24") H).
Defined.

Lemma plain_note :
  Some (noteFile "plain.md") = None
  \/ (exists file text,
        Some (noteFile "plain.md") = Some file
        /\ read (Vault := noteVault) file = Returned text
        /\ NoteDate.matchDate text = None).
Proof. right. exists (noteFile "plain.md"), plainText. repeat split. Qed.

Lemma insertTodaysEvents_today_witness :
  (Some (noteFile "plain.md") = None
   \/ (exists file text,
         Some (noteFile "plain.md") = Some file
         /\ read (Vault := noteVault) file = Returned text
         /\ NoteDate.matchDate text = None))
  /\ Forall validStart (events (configured [retro; review; standup]))
  /\ insertTodaysEvents (zone := tz) (vault := noteVault)
       (legacy := legacy)
       (Some (noteFile "plain.md")) noon
       (configured [retro; review; standup])
     = (Returned ("| Time | Event |" ++ nl ++ "|------|-------|" ++ nl
                  ++ "| 16:00 | Retro |" ++ nl
                  ++ "| 09:00 | Standup |" ++ nl),
        configured [retro; review; standup]).
Proof.
  split; [exact plain_note |]. split; [exact DemoFacts.valid_starts |].
  rewrite (insertTodaysEvents_today (zone := tz) (vault := noteVault)
             (legacy := legacy)
             (Some (noteFile "plain.md")) noon
             (configured [retro; review; standup])
             plain_note DemoFacts.valid_starts).
  vm_compute. reflexivity.
Defined.

(** In New York the note of 15 January 2024 gets the events of 14
    January. *)
Lemma insertTodaysEvents_written_day_witness :
  read (Vault := noteVault) (noteFile "daily.md") = Returned noteText
  /\ NoteDate.matchDate noteText = Some (NoteDate.isoText 2024 1 15)
  /\ Forall validStart (events (configured [brunch; standup]))
  /\ insertTodaysEvents (zone := west) (vault := noteVault)
       (legacy := westLegacy)
       (Some (noteFile "daily.md")) noon (configured [brunch; standup])
     = (Returned ("| Time | Event |" ++ nl ++ "|------|-------|" ++ nl
                  ++ "| 10:00 | Brunch |" ++ nl),
        configured [brunch; standup]).
Proof.
  assert (Hmatch : NoteDate.matchDate noteText
                   = Some (NoteDate.isoText 2024 1 15))
    by (vm_compute; reflexivity).
  split; [reflexivity |]. split; [exact Hmatch |].
  split; [exact some_valid_starts |].
  destruct (insertTodaysEvents_written_day (zone := west) (vault := noteVault)
              (legacy := westLegacy)
              (noteFile "daily.md") noteText 2024 1 15 noon
              (configured [brunch; standup]) eq_refl Hmatch
              ltac:(lia) ltac:(lia) ltac:(lia) some_valid_starts)
    as (E & _ & _).
  rewrite E. vm_compute. reflexivity.
Defined.

Lemma insertTodaysEvents_wrong_month_witness :
  read (Vault := noteVault) (noteFile "wrong.md") = Returned wrongMonthText
  /\ NoteDate.matchDate wrongMonthText = Some (NoteDate.isoText 2024 13 45)
  /\ Forall validStart (events (configured [retro; review; standup]))
  /\ insertTodaysEvents (zone := tz) (vault := noteVault)
       (legacy := legacy)
       (Some (noteFile "wrong.md")) noon
       (configured [retro; review; standup])
     = (Returned "No events for this date.",
        configured [retro; review; standup]).
Proof.
  assert (Hmatch : NoteDate.matchDate wrongMonthText
                   = Some (NoteDate.isoText 2024 13 45))
    by (vm_compute; reflexivity).
  split; [reflexivity |]. split; [exact Hmatch |].
  split; [exact DemoFacts.valid_starts |].
  exact (insertTodaysEvents_wrong_month (zone := tz) (vault := noteVault)
             (legacy := legacy)
           (noteFile "wrong.md") wrongMonthText 2024 13 45 noon
           (configured [retro; review; standup]) eq_refl Hmatch
           ltac:(lia) ltac:(lia) ltac:(lia) ltac:(lia)
           DemoFacts.valid_starts).
Defined.

Lemma insertTodaysEvents_read_failure_witness :
  read (Vault := noteVault) (noteFile "gone.md")
  = Thrown (OtherError "file not found")
  /\ insertTodaysEvents (zone := tz) (vault := noteVault)
       (legacy := legacy)
       (Some (noteFile "gone.md")) noon (configured [standup])
     = (Thrown (OtherError "file not found"), configured [standup]).
Proof.
  split; [reflexivity |].
  exact (proj1 (insertTodaysEvents_read_failure (zone := tz)
                  (vault := noteVault) (legacy := legacy)
                  (noteFile "gone.md") _ noon
                  (configured [standup]) eq_refl)).
Defined.

(** A second load of [twoVault] started when the first is at its first
    suspension: every event is there twice in the end. *)
Lemma overlapping_loads_witness :
  icsDirectory (settings suspended) <> ""
  /\ exists d,
       duo_reached (ical := lib) (vault := twoVault)
         (AwaitingRead workFile [teamFile], suspended) d
       /\ first d = Settled /\ second d = Settled
       /\ Permutation (events (shared d))
            ([standup; retro; review] ++ [standup; retro; review]).
Proof.
  assert (H : icsDirectory (settings suspended) <> "") by discriminate.
  split; [exact H |].
  destruct (overlapping_loads (ical := lib) (vault := twoVault)
              workFile [teamFile] suspended H)
    as (Hall & d & Hreached & Hfirst & Hsecond).
  exists d. split; [exact Hreached |]. split; [exact Hfirst |].
  split; [exact Hsecond |].
  exact (Hall d Hreached Hfirst Hsecond).
Defined.

(** An event component without DTEND line is converted, its end a copy
    of its start, and the document is loaded. *)
Example open_ended_event :
  events (after (loadEvents (ical := lib) (vault := openVault)
                   (configured [])))
  = [{| summary := "Standup"; start := at_ 2024 1 15 9 0;
        end_ := at_ 2024 1 15 9 0 |}].
Proof. vm_compute. reflexivity. Qed.

(** Texts that the legacy parser reads as a month, a day and a year. *)
Example legacy_dates :
  toDateString (zone := tz)
    (NoteDate.dateOfText (legacy := legacy) "0005-13-24")
  = "Mon May 13 2024"
  /\ toDateString (zone := tz)
       (NoteDate.dateOfText (legacy := legacy) "0005-10-00")
     = "Wed May 10 2000"
  /\ NoteDate.dateOfText (legacy := legacy) "2024-13-45" = InvalidDate
  /\ NoteDate.dateOfText (legacy := legacy) "2024-01-45" = InvalidDate.
Proof. vm_compute. repeat split. Qed.

End DemoMoreFacts.
